(** * type2kaitai: Go type declarations to Kaitai Struct schema

    Shallow embedding of [cmd/type2kaitai/main.go] and the properties of its
    translation engine: [snakeCase], [basicKindToKai], [Generator.kaiType],
    [Generator.generateType], [Generator.generate] and the part of [main]
    that drives them. *)

From Stdlib Require Import ZArith List String Ascii Lia Bool.
From Stdlib Require Import DecimalString DecimalZ.
From stdpp Require Import base gmap sorting.
Import ListNotations.

Local Open Scope Z_scope.
Local Open Scope list_scope.
#[local] Set Warnings "-register-all".

(* ===================================================================== *)
(** ** Strings *)
(* ===================================================================== *)

(** A Go [rune] is a Unicode code point held in an [int32]. *)
Definition rune := Z.

(** A Go string is modelled by the sequence of runes that [for _, r := range s]
    yields, which is also what [strings.Builder.WriteRune] appends to.  For the
    valid UTF-8 strings the tool handles (Go identifiers, format strings) this
    sequence determines the string. *)
Definition gostring := list rune.

(** String literals of the source, read as runes (all of them are ASCII). *)
Definition lit (s : string) : gostring :=
  List.map (fun c => Z.of_nat (nat_of_ascii c)) (list_ascii_of_string s).

(** The line feed ['\n']. *)
Definition nl : rune := 10.

(** [strings.Split(s, sep)] for a separator of one rune: the pieces between
    consecutive separators; [n] separators give [n + 1] pieces, and the empty
    string gives one empty piece. *)
Fixpoint Split (s : gostring) (sep : rune) : list gostring :=
  match s with
  | [] => [[]]
  | r :: s' =>
      if Z.eqb r sep then [] :: Split s' sep
      else match Split s' sep with
           | [] => [[r]]
           | p :: ps => (r :: p) :: ps
           end
  end.

(** [strings.Join(elems, sep)]. *)
Fixpoint Join (elems : list gostring) (sep : gostring) : gostring :=
  match elems with
  | [] => []
  | [e] => e
  | e :: es => e ++ sep ++ Join es sep
  end.

(** The verb [%d] of package fmt on an integer: its decimal digits, with a
    leading minus sign when negative. *)
Definition itoa (n : Z) : gostring := lit (NilZero.string_of_int (Z.to_int n)).

(** The integer a decimal literal denotes, to read back what [%d] printed;
    [None] when the text is not a decimal literal. *)
Definition ascii_of_rune (r : rune) : ascii := ascii_of_nat (Z.to_nat r).

Definition atoi (s : gostring) : option Z :=
  if forallb (fun r => (0 <=? r) && (r <? 256)) s
  then option_map Z.of_int
         (NilZero.int_of_string (string_of_list_ascii (List.map ascii_of_rune s)))
  else None.

(* ===================================================================== *)
(** ** Types of package go/types, as the tool observes them *)
(* ===================================================================== *)

(** [types.BasicKind], in declaration order. *)
Inductive BasicKind : Type :=
| Invalid
| Bool | Int | Int8 | Int16 | Int32 | Int64
| Uint | Uint8 | Uint16 | Uint32 | Uint64 | Uintptr
| Float32 | Float64 | Complex64 | Complex128
| String | UnsafePointer
| UntypedBool | UntypedInt | UntypedRune | UntypedFloat
| UntypedComplex | UntypedString | UntypedNil.

(** The aliases [types.Byte] and [types.Rune]. *)
Definition Byte : BasicKind := Uint8.
Definition Rune : BasicKind := Int32.

(** [types.Type]: the dynamic types a type switch can see.  A descriptor is a
    finite tree: a [Named] type carries the name of its object and its
    underlying type, a [Struct] its fields ([Var]s: name and type) in
    declaration order.  (A recursive declaration has a cyclic type graph and
    no such tree.) *)
Inductive GoType : Type :=
| Basic (kind : BasicKind) (name : gostring)
| Named (obj_name : gostring) (underlying : GoType)
| Struct (fields : list (gostring * GoType))
| Array (elem : GoType) (len : Z)
| Slice (elem : GoType)
| Pointer (elem : GoType)
| Signature (params results : list GoType)
| Map (key elem : GoType)
| Chan (elem : GoType)
| Interface (methods : list (gostring * GoType))
| Tuple (vars : list GoType).

(** [t.Underlying()]. *)
Definition Underlying (t : GoType) : GoType :=
  match t with
  | Named _ u => u
  | _ => t
  end.

(** The functions of Go's standard library that the tool calls and whose
    code is not part of the repository: the case tables of package unicode,
    the type printer of go/types (called with the qualifier [skipQualifier],
    which drops package names) and [filepath.Join].  Of the case tables one
    fact is used: the underscore (rune 95) is not an upper-case letter. *)
Class GoLib : Type := {
  IsUpper : rune -> bool;
  ToLower : rune -> rune;
  TypeString : GoType -> gostring;
  filepath_Join : gostring -> gostring -> gostring;
  underscore_not_upper : IsUpper 95 = false
}.

(* ===================================================================== *)
(** ** Fatal errors *)
(* ===================================================================== *)

(** The three ways a run ends early: [log.Fatalf] in [generate] when the
    requested name has no definition, the [panic] of the type switches of
    [generateType] and [kaiType], and the [panic] of [basicKindToKai]. *)
Inductive Fatal : Type :=
| UnresolvedTypeName (typeName : gostring)
| UnsupportedTypeKind (t : GoType)
| UnsupportedPrimitiveKind (kind : BasicKind).

Inductive Result (A : Type) : Type :=
| Ok (a : A)
| Abort (e : Fatal).
Arguments Ok {A} a.
Arguments Abort {A} e.

(* ===================================================================== *)
(** ** basicKindToKai *)
(* ===================================================================== *)

Definition basicKindToKai (kind : BasicKind) : Result gostring :=
  match kind with
  | Bool => Ok (lit "b8")
  | Int => Ok (lit "s8")
  | Int8 => Ok (lit "s1")
  | Int16 => Ok (lit "s2")
  | Int32 => Ok (lit "s4")
  | Int64 => Ok (lit "s8")
  | Uint => Ok (lit "u8")
  | Uint8 => Ok (lit "u1")
  | Uint16 => Ok (lit "u2")
  | Uint32 => Ok (lit "u4")
  | Uint64 => Ok (lit "u8")
  | Uintptr => Ok (lit "u8")
  | Float32 => Ok (lit "f2")
  | Float64 => Ok (lit "f4")
  | Complex64 => Ok (lit "go_complex64")
  | Complex128 => Ok (lit "go_complex128")
  | String => Ok (lit "go_string")
  | UnsafePointer => Ok (lit "go_unsafe_ptr")
  | _ => Abort (UnsupportedPrimitiveKind kind)
  end.

(* ===================================================================== *)
(** ** snakeCase *)
(* ===================================================================== *)

Section SnakeCase.
Context {L : GoLib}.

(** The loop of [snakeCase]: [prevUpper] is the loop-carried flag, the
    result is what the builder receives for the remaining runes. *)
Fixpoint snakeCase_loop (prevUpper : bool) (s : gostring) : gostring :=
  match s with
  | [] => []
  | r :: s' =>
      if IsUpper r then
        (if negb prevUpper then [95] else [])
          ++ ToLower r :: snakeCase_loop true s'
      else r :: snakeCase_loop false s'
  end.

Definition snakeCase (s : gostring) : gostring := snakeCase_loop true s.
End SnakeCase.

(* ===================================================================== *)
(** ** The generator *)
(* ===================================================================== *)

(** [Package]: the top-level type definitions found by [addPackage].  The
    source keys [defs] by identifier and [generate] ranges over it until an
    identifier has the requested name; a type-checked package declares each
    top-level name once, so the map is modelled by the list of (identifier
    name, [def.Type()]) pairs and the search by the first match. *)
Record Package : Type := {
  pkg_name : gostring;
  defs : list (gostring * GoType)
}.

(** [Generator]: the buffered output, the package and the named types met
    so far ([map[string]bool]). *)
Record Generator : Type := {
  buf : gostring;
  pkg : Package;
  namedTypeDeps : gmap gostring bool
}.

(** [g.Printf(format, args...)], with the formatted text as argument. *)
Definition Printf (text : gostring) (g : Generator) : Generator :=
  {| buf := buf g ++ text; pkg := pkg g; namedTypeDeps := namedTypeDeps g |}.

(** [g.namedTypeDeps[name] = true]. *)
Definition add_dep (name : gostring) (g : Generator) : Generator :=
  {| buf := buf g; pkg := pkg g;
     namedTypeDeps := <[name := true]> (namedTypeDeps g) |}.

Definition bind {A B : Type} (m : Result A) (k : A -> Result B) : Result B :=
  match m with
  | Ok a => k a
  | Abort e => Abort e
  end.

Notation "'let*' x := m 'in' k" := (bind m (fun x => k))
  (at level 10, x pattern, m at level 100, k at level 200, only parsing).

Section Translator.
Context {L : GoLib}.

(** [Generator.kaiType]: the directive lines of a field type, joined by
    line feeds, and the generator with its dependencies extended. *)
Fixpoint kaiType (t : GoType) (g : Generator) : Result (gostring * Generator) :=
  match t with
  | Basic kind name =>
      let* code := basicKindToKai kind in
      Ok (lit "type: " ++ code ++ lit " # " ++ name, g)
  | Named name underlying =>
      let g := add_dep name g in
      match underlying with
      | Basic ukind _ =>
          let* code := basicKindToKai ukind in
          Ok (lit "type: " ++ code ++ [nl] ++ lit "enum: " ++ snakeCase name, g)
      | _ => Ok (lit "type: " ++ snakeCase name ++ lit " # " ++ name, g)
      end
  | Array elem len =>
      let* (s, g) := kaiType elem g in
      Ok (s ++ [nl] ++ lit "repeat: expr" ++ [nl]
            ++ lit "repeat-expr: " ++ itoa len ++ lit " # " ++ TypeString t, g)
  | Slice elem =>
      let* (s, g) := kaiType elem g in
      Ok (s ++ [nl] ++ lit "repeat: expr" ++ [nl]
            ++ lit "repeat-expr: todo_add_slice_len # " ++ TypeString t, g)
  | Pointer _ => Ok (lit "type: pointer # " ++ TypeString t, g)
  | Signature _ _ => Ok (lit "type: func_signature # " ++ TypeString t, g)
  | _ => Abort (UnsupportedTypeKind t)
  end.

(** The same recursion run with a budget of nested calls: [None] when a
    call would be needed and the budget is spent. *)
Fixpoint kaiType_bounded (depth : nat) (t : GoType) (g : Generator)
  : option (Result (gostring * Generator)) :=
  match depth with
  | O => None
  | S depth' =>
      match t with
      | Basic kind name =>
          Some (let* code := basicKindToKai kind in
                Ok (lit "type: " ++ code ++ lit " # " ++ name, g))
      | Named name underlying =>
          let g := add_dep name g in
          match underlying with
          | Basic ukind _ =>
              Some (let* code := basicKindToKai ukind in
                    Ok (lit "type: " ++ code ++ [nl]
                          ++ lit "enum: " ++ snakeCase name, g))
          | _ => Some (Ok (lit "type: " ++ snakeCase name ++ lit " # " ++ name, g))
          end
      | Array elem len =>
          match kaiType_bounded depth' elem g with
          | None => None
          | Some r =>
              Some (let* (s, g) := r in
                    Ok (s ++ [nl] ++ lit "repeat: expr" ++ [nl]
                          ++ lit "repeat-expr: " ++ itoa len
                          ++ lit " # " ++ TypeString t, g))
          end
      | Slice elem =>
          match kaiType_bounded depth' elem g with
          | None => None
          | Some r =>
              Some (let* (s, g) := r in
                    Ok (s ++ [nl] ++ lit "repeat: expr" ++ [nl]
                          ++ lit "repeat-expr: todo_add_slice_len # "
                          ++ TypeString t, g))
          end
      | Pointer _ => Some (Ok (lit "type: pointer # " ++ TypeString t, g))
      | Signature _ _ => Some (Ok (lit "type: func_signature # " ++ TypeString t, g))
      | _ => Some (Abort (UnsupportedTypeKind t))
      end
  end.

(** The inner loop of [generateType]: one [Printf] per line of a field's
    translation. *)
Definition print_lines (lines : list gostring) (g : Generator) : Generator :=
  fold_left (fun g s => Printf (lit "        " ++ s ++ [nl]) g) lines g.

(** The loop of [generateType] over the fields [i, NumFields). *)
Fixpoint generateFields (fields : list (gostring * GoType)) (g : Generator)
  : Result Generator :=
  match fields with
  | [] => Ok g
  | (fname, ftype) :: rest =>
      let g := Printf (lit "      - id: " ++ snakeCase fname ++ [nl]) g in
      let* (s, g) := kaiType ftype g in
      generateFields rest (print_lines (Split s nl) g)
  end.

(** [Generator.generateType]. *)
Definition generateType (t : GoType) (g : Generator) : Result Generator :=
  match t with
  | Struct fields => generateFields fields g
  | _ => Abort (UnsupportedTypeKind t)
  end.

(** The search of [generate] through [g.pkg.defs].  The source ranges over
    a map, in no fixed order, and stops at the first identifier of the
    requested name; when the names are distinct the order does not matter
    ([find_def_any_order] below), and when a name is defined more than once
    (only the blank name can be) the first of the list stands for the one
    the run happens to meet. *)
Fixpoint find_def (ds : list (gostring * GoType)) (typeName : gostring)
  : option GoType :=
  match ds with
  | [] => None
  | (ident, T) :: ds' =>
      if decide (ident = typeName) then Some (Underlying T)
      else find_def ds' typeName
  end.

(** [Generator.generate]. *)
Definition generate (typeName : gostring) (g : Generator) : Result Generator :=
  match find_def (defs (pkg g)) typeName with
  | None => Abort (UnresolvedTypeName typeName)
  | Some underlying =>
      let g := Printf (lit "  " ++ snakeCase typeName ++ lit ":" ++ [nl]) g in
      let g := Printf (lit "    seq:" ++ [nl]) g in
      generateType underlying g
  end.
End Translator.

(* ===================================================================== *)
(** ** main *)
(* ===================================================================== *)

(** What [main] has in hand once the flags are parsed and [parsePackage]
    has returned: the command line ([os.Args[1:]]), the flags [-type] and
    [-output], the directory of the package and the package itself. *)
Record Invocation : Type := {
  osArgs : list gostring;
  typeNames : gostring;
  output : gostring;
  dir : gostring;
  loaded : Package
}.

(** How the process ends: [main] returns, [flag.Usage(); os.Exit(2)], or a
    fatal error ([log.Fatalf] or an uncaught [panic]). *)
Inductive Exit : Type :=
| Finished
| UsageExit
| Fatality (e : Fatal).

(** [Generator{namedTypeDeps: make(map[string]bool)}] after [parsePackage]. *)
Definition new_generator (p : Package) : Generator :=
  {| buf := []; pkg := p; namedTypeDeps := ∅ |}.

Section Main.
Context {L : GoLib}.

(** [strings.ToLower]. *)
Definition strings_ToLower (s : gostring) : gostring := List.map ToLower s.

(** The loop [for _, typeName := range types { g.generate(typeName) }]. *)
Fixpoint generate_all (types : list gostring) (g : Generator) : Result Generator :=
  match types with
  | [] => Ok g
  | typeName :: rest =>
      let* g := generate typeName g in
      generate_all rest g
  end.

(** The header line; rune 34 is the double quote. *)
Definition header (inv : Invocation) : gostring :=
  lit "# Code generated by " ++ [34] ++ lit "enum2kaitai "
    ++ Join (osArgs inv) (lit " ") ++ [34] ++ lit "; DO NOT EDIT." ++ [nl].

(** [main] from the check of [-type] on.  The file system is a map from
    file names to contents and [ioutil.WriteFile] stores the buffer in it;
    the lines sent to package log are not part of the state. *)
Definition main (inv : Invocation) (fs : gmap gostring gostring)
  : gmap gostring gostring * Exit :=
  match typeNames inv with
  | [] => (fs, UsageExit)
  | _ =>
      let types := Split (typeNames inv) 44 in
      let g := new_generator (loaded inv) in
      let g := Printf (header inv) g in
      let g := Printf [nl] g in
      let g := Printf (lit "types:" ++ [nl]) g in
      match generate_all types g with
      | Abort e => (fs, Fatality e)
      | Ok g =>
          let src := buf g in
          let outputName :=
            match output inv with
            | [] => filepath_Join (dir inv)
                      (strings_ToLower (hd [] types ++ lit "_type.ksy"))
            | name => name
            end in
          (<[outputName := src]> fs, Finished)
      end
  end.
End Main.

(* ===================================================================== *)
(** ** An excerpt of the standard library, for closed examples *)
(* ===================================================================== *)

(** [unicode.IsUpper] on the Basic Latin and Latin-1 blocks (A-Z, U+00C0 to
    U+00D6, U+00D8 to U+00DE) and on two letterlike symbols of category Lu,
    U+2102 (double-struck capital C) and U+2115 (double-struck capital N).
    Runes outside these blocks are outside the excerpt. *)
Definition excerpt_IsUpper (r : rune) : bool :=
  ((65 <=? r) && (r <=? 90)) || ((192 <=? r) && (r <=? 214))
  || ((216 <=? r) && (r <=? 222)) || (r =? 8450) || (r =? 8469).

(** [unicode.ToLower] on the same runes: the Latin capitals have their small
    letter 32 code points up; U+2102 and U+2115 have no lower-case mapping in
    the Unicode tables, so [ToLower] returns them unchanged. *)
Definition excerpt_ToLower (r : rune) : rune :=
  if ((65 <=? r) && (r <=? 90)) || ((192 <=? r) && (r <=? 214))
     || ((216 <=? r) && (r <=? 222))
  then r + 32 else r.

(** [types.TypeString] without package qualifiers: fields and parameters are
    shown as the type checker shows them when they carry no tag, no embedding
    and no parameter name; a method is shown by its name followed by its
    signature without the leading [func]. *)
Fixpoint excerpt_TypeString (t : GoType) : gostring :=
  match t with
  | Basic _ name => name
  | Named name _ => name
  | Struct fields =>
      lit "struct{"
        ++ Join (List.map (fun f => fst f ++ lit " " ++ excerpt_TypeString (snd f)) fields)
             (lit "; ")
        ++ lit "}"
  | Array elem len => lit "[" ++ itoa len ++ lit "]" ++ excerpt_TypeString elem
  | Slice elem => lit "[]" ++ excerpt_TypeString elem
  | Pointer elem => lit "*" ++ excerpt_TypeString elem
  | Signature params results =>
      lit "func(" ++ Join (List.map excerpt_TypeString params) (lit ", ") ++ lit ")"
        ++ match results with
           | [] => []
           | [r] => lit " " ++ excerpt_TypeString r
           | _ => lit " (" ++ Join (List.map excerpt_TypeString results) (lit ", ")
                    ++ lit ")"
           end
  | Map key elem =>
      lit "map[" ++ excerpt_TypeString key ++ lit "]" ++ excerpt_TypeString elem
  | Chan elem => lit "chan " ++ excerpt_TypeString elem
  | Interface methods =>
      lit "interface{"
        ++ Join (List.map (fun m => fst m ++ skipn 4 (excerpt_TypeString (snd m))) methods)
             (lit "; ")
        ++ lit "}"
  | Tuple vars => lit "(" ++ Join (List.map excerpt_TypeString vars) (lit ", ") ++ lit ")"
  end.

(** [filepath.Join] of a clean directory and a file name. *)
Definition excerpt_Join (d name : gostring) : gostring :=
  if decide (d = [] \/ d = lit ".") then name else d ++ lit "/" ++ name.

Definition go_excerpt : GoLib := {|
  IsUpper := excerpt_IsUpper;
  ToLower := excerpt_ToLower;
  TypeString := excerpt_TypeString;
  filepath_Join := excerpt_Join;
  underscore_not_upper := eq_refl
|}.

(* ===================================================================== *)
(** ** Vocabulary of the statements *)
(* ===================================================================== *)

(** The basic kinds [basicKindToKai] has no case for: the invalid kind and
    the kinds of untyped constants. *)
Definition kinds_without_code : list BasicKind :=
  [Invalid; UntypedBool; UntypedInt; UntypedRune; UntypedFloat;
   UntypedComplex; UntypedString; UntypedNil].

(** Kinds of the same 64-bit representation: [int] with [int64], and [uint]
    and [uintptr] with [uint64]. *)
Definition signed_64 : list BasicKind := [Int; Int64].
Definition unsigned_64 : list BasicKind := [Uint; Uint64; Uintptr].

Definition same_width (k1 k2 : BasicKind) : Prop :=
  (In k1 signed_64 /\ In k2 signed_64) \/ (In k1 unsigned_64 /\ In k2 unsigned_64).

(** [strings.CutPrefix(s, prefix)], as an option. *)
Fixpoint CutPrefix (s prefix : gostring) : option gostring :=
  match prefix, s with
  | [], _ => Some s
  | p :: prefix', r :: s' => if Z.eqb r p then CutPrefix s' prefix' else None
  | _ :: _, [] => None
  end.

(** The lines of a document, and the identifiers of its [- id:] entries (at
    the indentation [generateType] writes them with), in document order. *)
Definition lines (doc : gostring) : list gostring := Split doc nl.

Definition id_entries (doc : gostring) : list gostring :=
  omap (fun l => CutPrefix l (lit "      - id: ")) (lines doc).

(** Text made of complete lines. *)
Definition unlines (ls : list gostring) : gostring :=
  concat (List.map (fun l => l ++ [nl]) ls).

(** The number of array and slice constructors at the head of a type. *)
Fixpoint wrappers (t : GoType) : nat :=
  match t with
  | Array elem _ => S (wrappers elem)
  | Slice elem => S (wrappers elem)
  | _ => O
  end.

(** A rune is caseable when lower-casing it leaves no upper-case letter. *)
Definition lowers_properly {L : GoLib} (r : rune) : Prop :=
  IsUpper r = true -> IsUpper (ToLower r) = false.

(** *** Example declarations

    [type OrderStatus uint8], [type Order struct { Status OrderStatus; Items
    [4]uint8 }] and [type Lookup struct { Index map[string]uint8 }] in a
    package [shop]. *)
Definition uint8_t : GoType := Basic Uint8 (lit "uint8").
Definition string_t : GoType := Basic String (lit "string").
Definition OrderStatus : GoType := Named (lit "OrderStatus") uint8_t.
Definition Order : GoType :=
  Named (lit "Order")
    (Struct [(lit "Status", OrderStatus); (lit "Items", Array uint8_t 4)]).
Definition Lookup : GoType :=
  Named (lit "Lookup") (Struct [(lit "Index", Map string_t uint8_t)]).

Definition shop : Package :=
  {| pkg_name := lit "shop";
     defs := [(lit "OrderStatus", OrderStatus); (lit "Order", Order);
              (lit "Lookup", Lookup)] |}.

(** The command line [-type <names>] in the directory of [shop]. *)
Definition shop_run (names : gostring) : Invocation :=
  {| osArgs := [lit "-type"; names]; typeNames := names; output := [];
     dir := lit "."; loaded := shop |}.

(** The generator after [generate] has run on [Order], with the excerpt of
    the library (the generator is left as it was if the run fails). *)
Definition order_generated : Generator :=
  match generate (L := go_excerpt) (lit "Order") (new_generator shop) with
  | Ok g => g
  | Abort _ => new_generator shop
  end.

(* ===================================================================== *)
(** ** Loading the package: parsePackage and addPackage *)
(* ===================================================================== *)

(** [ast.Ident]: a name and the position it stands at.  [TypesInfo.Defs] is
    keyed by the identifier node; the position stands for the node. *)
Record Ident : Type := {
  NamePos : Z;
  Name : gostring
}.

(** [ast.Spec] and [ast.Decl], as far as [addPackage] tells them apart.  The
    body of a function is kept as the declarations its statements make. *)
Inductive Spec : Type :=
| ImportSpec
| ValueSpec (Names : list Ident)
| TypeSpec (spec_Name : Ident).

Inductive Decl : Type :=
| BadDecl
| GenDecl (Specs : list Spec)
| FuncDecl (func_Name : Ident) (Body : list Decl).

(** [packages.Package]: its name, the declarations of each syntax file and
    [TypesInfo.Defs], which gives for an identifier the type of the object it
    defines ([def.Type()]). *)
Record packages_Package : Type := {
  Pkg_Name : gostring;
  Syntax : list (list Decl);
  TypesInfo_Defs : gmap Z GoType
}.

(** How loading ends early: [packages.Load] returns an error, the number of
    packages is not one, or a type specification has no definition. *)
Inductive LoadFailure : Type :=
| LoadError
| PackageCount (n : nat)
| NoDefinition (spec_name : Ident).

(** The loop of [addPackage] over [decl.Specs]; [topLevelDefs] is the map
    being filled.  The list holds the entries of the map; the map has no
    order, so the position of an entry in the list has no meaning. *)
Fixpoint addSpecs (Defs : gmap Z GoType) (specs : list Spec)
    (topLevelDefs : list (gostring * GoType))
  : LoadFailure + list (gostring * GoType) :=
  match specs with
  | [] => inr topLevelDefs
  | TypeSpec spec_Name :: rest =>
      match Defs !! NamePos spec_Name with
      | None => inl (NoDefinition spec_Name)
      | Some def => addSpecs Defs rest (topLevelDefs ++ [(Name spec_Name, def)])
      end
  | _ :: rest => addSpecs Defs rest topLevelDefs
  end.

(** The loop over [file.file.Decls]. *)
Fixpoint addDecls (Defs : gmap Z GoType) (decls : list Decl)
    (topLevelDefs : list (gostring * GoType))
  : LoadFailure + list (gostring * GoType) :=
  match decls with
  | [] => inr topLevelDefs
  | GenDecl specs :: rest =>
      match addSpecs Defs specs topLevelDefs with
      | inl e => inl e
      | inr topLevelDefs => addDecls Defs rest topLevelDefs
      end
  | _ :: rest => addDecls Defs rest topLevelDefs
  end.

(** The loop over [g.pkg.files]. *)
Fixpoint addFiles (Defs : gmap Z GoType) (files : list (list Decl))
    (topLevelDefs : list (gostring * GoType))
  : LoadFailure + list (gostring * GoType) :=
  match files with
  | [] => inr topLevelDefs
  | decls :: rest =>
      match addDecls Defs decls topLevelDefs with
      | inl e => inl e
      | inr topLevelDefs => addFiles Defs rest topLevelDefs
      end
  end.

(** [Generator.addPackage]. *)
Definition addPackage (p : packages_Package) (g : Generator)
  : LoadFailure + Generator :=
  match addFiles (TypesInfo_Defs p) (Syntax p) [] with
  | inl e => inl e
  | inr topLevelDefs =>
      inr {| buf := buf g;
             pkg := {| pkg_name := Pkg_Name p; defs := topLevelDefs |};
             namedTypeDeps := namedTypeDeps g |}
  end.

(** [Generator.parsePackage], given what [packages.Load] returned: [None]
    for an error, the packages otherwise. *)
Definition parsePackage (loaded : option (list packages_Package)) (g : Generator)
  : LoadFailure + Generator :=
  match loaded with
  | None => inl LoadError
  | Some [p] => addPackage p g
  | Some pkgs => inl (PackageCount (length pkgs))
  end.

(* ===================================================================== *)
(** ** The report of dependencies at the end of main *)
(* ===================================================================== *)

(** The order of Go strings: byte-wise, which on rune sequences is the
    lexicographic order of the code points. *)
Fixpoint string_le (a b : gostring) : bool :=
  match a, b with
  | [], _ => true
  | _ :: _, [] => false
  | x :: a', y :: b' =>
      if x <? y then true else if y <? x then false else string_le a' b'
  end.

Definition string_order (a b : gostring) : Prop := string_le a b = true.

#[global] Instance string_order_dec : RelDecision string_order :=
  fun a b => decide (string_le a b = true).

(** [sort.Strings]. *)
Definition sort_Strings (l : list gostring) : list gostring :=
  merge_sort string_order l.

(** The keys of [g.namedTypeDeps], sorted, as [main] collects them. *)
Definition sorted_deps (g : Generator) : list gostring :=
  sort_Strings (map_to_list (namedTypeDeps g)).*1.

(** The lines [log.Println] writes for them, with the prefix [main] set. *)
Definition dependency_log (g : Generator) : list gostring :=
  List.map (fun dep => lit "enum2kaitai: depends on named Go type: " ++ dep ++ [nl])
    (sorted_deps g).

(* ===================================================================== *)
(** ** More vocabulary *)
(* ===================================================================== *)

(** The type under the array and slice constructors at the head of a type. *)
Fixpoint innermost (t : GoType) : GoType :=
  match t with
  | Array elem _ => innermost elem
  | Slice elem => innermost elem
  | _ => t
  end.

(** The named type a field type refers to, if any. *)
Definition dep_of (t : GoType) : option gostring :=
  match innermost t with
  | Named name _ => Some name
  | _ => None
  end.

(** What [snakeCase] writes for a rune, separator aside. *)
Definition lower_rune {L : GoLib} (r : rune) : rune :=
  if IsUpper r then ToLower r else r.

(** The named types the fields of a struct refer to, in field order. *)
Definition field_deps (fields : list (gostring * GoType)) : list gostring :=
  omap (fun f => dep_of (snd f)) fields.

(** The lines of one field in the document: the entry line, then the lines
    of the text [kaiType] returns for the type of the field (the same text
    in every generator), each behind eight spaces; the first of them is a
    [type:] directive. *)
Definition field_block {L : GoLib} (f : gostring * GoType) (block : list gostring)
  : Prop :=
  exists s rest more,
    (forall g0, exists g1, kaiType (snd f) g0 = Ok (s, g1))
    /\ lines s = (lit "type: " ++ rest) :: more
    /\ block = (lit "      - id: " ++ snakeCase (fst f))
                 :: List.map (fun l => lit "        " ++ l) (lines s).

(** What the normalizer writes for one rune, told by the rune before it
    ([None] for the first rune): an underscore when the rune is upper case
    and follows a rune that is not, and then the rune, lower-cased when it is
    upper case. *)
Definition piece {L : GoLib} (prev : option rune) (r : rune) : gostring :=
  (if IsUpper r && match prev with
                   | Some p => negb (IsUpper p)
                   | None => false
                   end
   then [95] else [])
    ++ [lower_rune r].

Fixpoint pieces {L : GoLib} (prev : option rune) (s : gostring) : list gostring :=
  match s with
  | [] => []
  | r :: s' => piece prev r :: pieces (Some r) s'
  end.

(** The identifiers of the type specifications at the top level of the
    files of a package, in source order. *)
Definition type_specs_of (specs : list Spec) : list Ident :=
  omap (fun spec => match spec with TypeSpec id => Some id | _ => None end) specs.

Definition top_level_type_specs (p : packages_Package) : list Ident :=
  concat (List.map
            (fun decls =>
               concat (List.map
                         (fun decl => match decl with
                                      | GenDecl specs => type_specs_of specs
                                      | _ => []
                                      end) decls))
            (Syntax p)).

(** *** The example package as loaded

    Two files: [import ...; type OrderStatus uint8; func helper() { type
    scratch struct{} }] and [type Order struct {...}; var limit ...; type
    Lookup struct {...}]. *)
Definition id_OrderStatus : Ident := {| NamePos := 40; Name := lit "OrderStatus" |}.
Definition id_helper : Ident := {| NamePos := 70; Name := lit "helper" |}.
Definition id_scratch : Ident := {| NamePos := 90; Name := lit "scratch" |}.
Definition id_Order : Ident := {| NamePos := 1040; Name := lit "Order" |}.
Definition id_limit : Ident := {| NamePos := 1100; Name := lit "limit" |}.
Definition id_Lookup : Ident := {| NamePos := 1130; Name := lit "Lookup" |}.

Definition shop_loaded : packages_Package :=
  {| Pkg_Name := lit "shop";
     Syntax :=
       [[GenDecl [ImportSpec];
         GenDecl [TypeSpec id_OrderStatus];
         FuncDecl id_helper [GenDecl [TypeSpec id_scratch]]];
        [GenDecl [TypeSpec id_Order];
         GenDecl [ValueSpec [id_limit]];
         GenDecl [TypeSpec id_Lookup]]];
     TypesInfo_Defs :=
       <[40 := OrderStatus]> (<[90 := Named (lit "scratch") (Struct [])]>
       (<[1040 := Order]> (<[1100 := Basic Int (lit "int")]>
       (<[1130 := Lookup]> ∅)))) |}.

(** [type Matrix struct { Rows [][4]OrderStatus; Next *Order; Hook func() }]. *)
Definition Matrix_fields : list (gostring * GoType) :=
  [(lit "Rows", Slice (Array OrderStatus 4));
   (lit "Next", Pointer Order);
   (lit "Hook", Signature [] [])].

(** The generator after [generateType] has run on the struct of
    [Matrix_fields] (left as it was if the run fails). *)
Definition matrix_generated : Generator :=
  match generateType (L := go_excerpt) (Struct Matrix_fields) (new_generator shop) with
  | Ok g => g
  | Abort _ => new_generator shop
  end.

(** The generator after [parsePackage] has loaded the example package
    (left as it was if loading fails). *)
Definition shop_parsed : Generator :=
  match parsePackage (Some [shop_loaded]) (new_generator shop) with
  | inr g => g
  | inl _ => new_generator shop
  end.

(** A file system in which only the current directory exists. *)
Definition only_dot (name : gostring) : option bool :=
  if decide (name = lit ".") then Some true else None.

(* ===================================================================== *)
(** ** The start of main: arguments, tags and directory *)
(* ===================================================================== *)

(** How the start of [main] ends early: [os.Stat] fails in [isDirectory], or
    [-tags] is given with something else than one directory. *)
Inductive StartFailure : Type :=
| StatError (name : gostring)
| TagsWithFiles.

Section Start.
(** [os.Stat(name)] followed by [IsDir()]: [None] when [os.Stat] returns an
    error; and [filepath.Dir]. *)
Variable stat_IsDir : gostring -> option bool.
Variable filepath_Dir : gostring -> gostring.

(** [isDirectory]. *)
Definition isDirectory (name : gostring) : StartFailure + bool :=
  match stat_IsDir name with
  | None => inl (StatError name)
  | Some b => inr b
  end.

(** Lines 44 to 68 of [main]: from the flag [-tags] and the arguments left
    after the flags, the arguments, the tags and the directory handed on. *)
Definition main_start (buildTags : gostring) (flag_Args : list gostring)
  : StartFailure + (list gostring * list gostring * gostring) :=
  let tags := match buildTags with [] => [] | _ => Split buildTags 44 end in
  let args := match flag_Args with [] => [lit "."] | _ => flag_Args end in
  let files :=
    match tags with
    | [] => inr (args, tags, filepath_Dir (hd [] args))
    | _ => inl TagsWithFiles
    end in
  match args with
  | [a] =>
      match isDirectory a with
      | inl e => inl e
      | inr true => inr (args, tags, a)
      | inr false => files
      end
  | _ => files
  end.
End Start.

(* ===================================================================== *)
(** ** basicKindToKai *)
(* ===================================================================== *)

(** C2 (as stated, refuted): [int] and [int64] are distinct supported kinds
    with the same code. *)
Lemma basicKindToKai_not_injective :
  ~ (forall k1 k2 c,
        basicKindToKai k1 = Ok c -> basicKindToKai k2 = Ok c -> k1 = k2).
Proof.
  intros H. specialize (H Int Int64 (lit "s8") eq_refl eq_refl). discriminate H.
Qed.

(** C2 (amended): two supported kinds with the same code are equal or of the
    same 64-bit width, and the kinds of the same width do share their code:
    [int] and [int64] both map to [s8], and [uint], [uint64] and [uintptr] all
    map to [u8]; the code depends on the kind alone: [kaiType] gets it for a
    basic type of that kind in every generator state and under every name of
    the type. *)
Theorem basicKindToKai_injective_up_to_width :
  forall k1 k2 c,
    basicKindToKai k1 = Ok c ->
    basicKindToKai k2 = Ok c ->
    (k1 = k2 \/ same_width k1 k2)
    /\ (forall k, In k signed_64 -> basicKindToKai k = Ok (lit "s8"))
    /\ (forall k, In k unsigned_64 -> basicKindToKai k = Ok (lit "u8"))
    /\ (forall (L : GoLib) (g : Generator) (name : gostring),
           kaiType (Basic k1 name) g
           = Ok (lit "type: " ++ c ++ lit " # " ++ name, g)).
Proof.
  intros k1 k2 c H1 H2. split; [| split; [| split]].
  - destruct k1; try discriminate H1;
      destruct k2; try discriminate H2;
      try (left; reflexivity);
      vm_compute in H1, H2;
      try (rewrite <- H2 in H1; discriminate H1);
      right; unfold same_width, signed_64, unsigned_64; simpl; tauto.
  - intros k [<- | [<- | []]]; reflexivity.
  - intros k [<- | [<- | [<- | []]]]; reflexivity.
  - intros L g name. simpl. rewrite H1. reflexivity.
Qed.

Lemma basicKindToKai_injective_up_to_width_witness :
  (Uint = Uintptr \/ same_width Uint Uintptr)
  /\ (forall k, In k signed_64 -> basicKindToKai k = Ok (lit "s8"))
  /\ (forall k, In k unsigned_64 -> basicKindToKai k = Ok (lit "u8"))
  /\ (forall (L : GoLib) (g : Generator) (name : gostring),
         kaiType (Basic Uint name) g
         = Ok (lit "type: " ++ lit "u8" ++ lit " # " ++ name, g)).
Proof.
  apply (basicKindToKai_injective_up_to_width Uint Uintptr (lit "u8"));
    reflexivity.
Defined.

(** C3 (as stated, refuted): the textual kind gets a code. *)
Lemma basicKindToKai_string_has_code :
  basicKindToKai String = Ok (lit "go_string")
  /\ basicKindToKai String <> Abort (UnsupportedPrimitiveKind String).
Proof. split; [reflexivity | discriminate]. Qed.

(** C3 (amended): the mapping fails, with [UnsupportedPrimitiveKind] of the
    kind, exactly on the invalid kind and the untyped-constant kinds; the
    textual, complex, unsafe-pointer and pointer-sized kinds have codes. *)
Theorem basicKindToKai_fails_only_without_case :
  forall k,
    match basicKindToKai k with
    | Ok _ => ~ In k kinds_without_code
    | Abort e => e = UnsupportedPrimitiveKind k /\ In k kinds_without_code
    end
    /\ basicKindToKai String = Ok (lit "go_string")
    /\ basicKindToKai Complex64 = Ok (lit "go_complex64")
    /\ basicKindToKai Complex128 = Ok (lit "go_complex128")
    /\ basicKindToKai UnsafePointer = Ok (lit "go_unsafe_ptr")
    /\ basicKindToKai Uintptr = Ok (lit "u8").
Proof.
  intros k. split; [| repeat split].
  destruct k; simpl; try (split; [reflexivity | tauto]);
    intros H; repeat (destruct H as [H | H]; [discriminate H |]); exact H.
Qed.

(* ===================================================================== *)
(** ** snakeCase *)
(* ===================================================================== *)

Section SnakeCaseFacts.
Context {L : GoLib}.

Lemma snakeCase_loop_no_upper (s : gostring) :
  forall b,
    Forall lowers_properly s ->
    Forall (fun r => IsUpper r = false) (snakeCase_loop b s).
Proof.
  induction s as [| r s IH]; intros b Hs; simpl.
  - constructor.
  - inversion Hs as [| ? ? Hr Hs']; subst.
    destruct (IsUpper r) eqn:Hu.
    + apply Forall_app. split.
      * destruct b; simpl; [constructor |].
        constructor; [apply underscore_not_upper | constructor].
      * constructor; [apply Hr, Hu | apply IH, Hs'].
    + constructor; [exact Hu | apply IH, Hs'].
Qed.

Lemma snakeCase_loop_fixed (s : gostring) :
  forall b, Forall (fun r => IsUpper r = false) s -> snakeCase_loop b s = s.
Proof.
  induction s as [| r s IH]; intros b Hs; simpl; [reflexivity |].
  inversion Hs as [| ? ? Hr Hs']; subst.
  rewrite Hr. f_equal. apply IH, Hs'.
Qed.

(** C7 (amended): normalizing twice is normalizing once, for every string
    whose upper-case runes all have a lower-case form that is not itself
    upper case. *)
Theorem snakeCase_idempotent (s : gostring) :
  Forall lowers_properly s ->
  snakeCase (snakeCase s) = snakeCase s.
Proof.
  intros Hs. unfold snakeCase at 1.
  apply snakeCase_loop_fixed, snakeCase_loop_no_upper, Hs.
Qed.
End SnakeCaseFacts.

(** C7 (as stated, refuted): U+2102 is an upper-case letter without a
    lower-case form, so a second pass inserts a second separator. *)
Lemma snakeCase_not_idempotent :
  snakeCase (L := go_excerpt) [120; 8450] = [120; 95; 8450]
  /\ snakeCase (L := go_excerpt) (snakeCase (L := go_excerpt) [120; 8450])
     = [120; 95; 95; 8450]
  /\ snakeCase (L := go_excerpt) (snakeCase (L := go_excerpt) [120; 8450])
     <> snakeCase (L := go_excerpt) [120; 8450].
Proof. repeat split. discriminate. Qed.

Lemma snakeCase_idempotent_witness :
  Forall (lowers_properly (L := go_excerpt)) (lit "OrderStatus")
  /\ snakeCase (L := go_excerpt) (snakeCase (L := go_excerpt) (lit "OrderStatus"))
     = snakeCase (L := go_excerpt) (lit "OrderStatus").
Proof.
  assert (H : Forall (lowers_properly (L := go_excerpt)) (lit "OrderStatus")).
  { repeat constructor; intros _; reflexivity. }
  split; [exact H | apply (snakeCase_idempotent (L := go_excerpt) _ H)].
Defined.

(* ===================================================================== *)
(** ** Strings, lines and decimal literals *)
(* ===================================================================== *)

Lemma lit_cons (c : ascii) (s : string) :
  lit (String.String c s) = Z.of_nat (nat_of_ascii c) :: lit s.
Proof. reflexivity. Qed.

(* From here on literals stay folded under [simpl]. *)
Opaque lit.

(** Membership of a rune in a closed string that does not hold it. *)
Ltac refute_in H :=
  vm_compute in H; repeat (destruct H as [H | H]; [discriminate H |]); exact H.

Lemma Split_nonempty (s : gostring) (sep : rune) : Split s sep <> [].
Proof.
  destruct s as [| r s]; simpl; [discriminate |].
  destruct (r =? sep); [discriminate |].
  destruct (Split s sep); discriminate.
Qed.

Lemma Split_no_sep (s : gostring) (sep : rune) :
  ~ In sep s -> Split s sep = [s].
Proof.
  induction s as [| r s IH]; intros Hs; simpl; [reflexivity |].
  destruct (Z.eqb_spec r sep) as [-> | Hne].
  - exfalso. apply Hs. left. reflexivity.
  - rewrite IH; [reflexivity |]. intros Hin. apply Hs. right. exact Hin.
Qed.

Lemma Split_app_sep (a b : gostring) (sep : rune) :
  Split (a ++ sep :: b) sep = Split a sep ++ Split b sep.
Proof.
  induction a as [| r a IH]; simpl.
  - rewrite Z.eqb_refl. reflexivity.
  - destruct (r =? sep).
    + rewrite IH. reflexivity.
    + rewrite IH. pose proof (Split_nonempty a sep) as Hne.
      destruct (Split a sep); [contradiction | reflexivity].
Qed.

Lemma Split_pieces (s : gostring) (sep : rune) :
  Forall (fun p => ~ In sep p) (Split s sep).
Proof.
  induction s as [| r s IH]; simpl.
  - constructor; [intros [] | constructor].
  - destruct (Z.eqb_spec r sep) as [-> | Hne].
    + constructor; [intros [] | exact IH].
    + destruct (Split s sep) as [| p ps].
      * constructor; [| constructor]. intros [H | []]. congruence.
      * inversion IH as [| ? ? Hp Hps]; subst.
        constructor; [| exact Hps].
        intros [H | H]; [congruence | contradiction].
Qed.

Lemma Split_unlines (ls : list gostring) (rest : gostring) :
  Forall (fun l => ~ In nl l) ls ->
  Split (unlines ls ++ rest) nl = ls ++ Split rest nl.
Proof.
  unfold unlines.
  induction ls as [| l ls IH]; intros Hls; simpl; [reflexivity |].
  inversion Hls as [| ? ? Hl Hls']; subst.
  rewrite <- !app_assoc. simpl. rewrite Split_app_sep.
  rewrite (Split_no_sep l nl Hl). simpl. f_equal. apply IH, Hls'.
Qed.

Lemma unlines_app (a b : list gostring) : unlines (a ++ b) = unlines a ++ unlines b.
Proof. unfold unlines. rewrite List.map_app, concat_app. reflexivity. Qed.

Lemma unlines_cons (l : gostring) (ls : list gostring) :
  unlines (l :: ls) = l ++ nl :: unlines ls.
Proof. unfold unlines. simpl. rewrite <- app_assoc. reflexivity. Qed.

Lemma indent_no_nl (xs : list gostring) :
  Forall (fun l => ~ In nl l) xs ->
  Forall (fun l => ~ In nl l) (List.map (fun s => lit "        " ++ s) xs).
Proof.
  induction 1 as [| l xs Hl _ IH]; simpl; constructor; [| exact IH].
  intros Hin. apply in_app_or in Hin. destruct Hin as [Hin | Hin];
    [| contradiction].
  refute_in Hin.
Qed.

Lemma CutPrefix_app (prefix s : gostring) : CutPrefix (prefix ++ s) prefix = Some s.
Proof.
  induction prefix as [| p prefix IH]; simpl; [destruct s; reflexivity |].
  rewrite Z.eqb_refl. exact IH.
Qed.

Lemma uint_digits_no_nl (d : Decimal.uint) :
  ~ In nl (lit (NilEmpty.string_of_uint d)).
Proof.
  induction d; simpl NilEmpty.string_of_uint; [intros [] | ..];
    rewrite lit_cons; (intros [H | H]; [discriminate H | contradiction]).
Qed.

Lemma itoa_no_nl (n : Z) : ~ In nl (itoa n).
Proof.
  unfold itoa.
  assert (Hz : forall d, ~ In nl (lit (NilZero.string_of_uint d))).
  { intros d. destruct d; try apply uint_digits_no_nl.
    simpl. intros [H | []]. discriminate H. }
  destruct (Z.to_int n) as [d | d]; simpl NilZero.string_of_int.
  - apply Hz.
  - rewrite lit_cons. intros [H | H]; [discriminate H | exact (Hz d H)].
Qed.

Lemma lit_one_byte (s : string) :
  forallb (fun r => (0 <=? r) && (r <? 256)) (lit s) = true.
Proof.
  induction s as [| c s IH]; [reflexivity |].
  rewrite lit_cons. simpl. rewrite IH, andb_true_r.
  pose proof (nat_ascii_bounded c) as Hc.
  apply andb_true_iff. split; [apply Z.leb_le | apply Z.ltb_lt]; lia.
Qed.

Lemma lit_ascii (s : string) :
  string_of_list_ascii (List.map ascii_of_rune (lit s)) = s.
Proof.
  induction s as [| c s IH]; [reflexivity |].
  rewrite lit_cons. simpl. rewrite IH. f_equal.
  unfold ascii_of_rune. rewrite Nat2Z.id. apply ascii_nat_embedding.
Qed.

(** The literal [%d] prints denotes the integer printed. *)
Lemma atoi_itoa (n : Z) : atoi (itoa n) = Some n.
Proof.
  unfold atoi, itoa. rewrite lit_one_byte, lit_ascii.
  rewrite NilZero.isi.
  - simpl. f_equal. apply DecimalZ.of_to.
  - destruct n; simpl; try discriminate.
    intros H. injection H as H. exact (DecimalPos.Unsigned.to_uint_nonnil _ H).
  - destruct n; simpl; try discriminate.
    intros H. injection H as H. exact (DecimalPos.Unsigned.to_uint_nonnil _ H).
Qed.

(* ===================================================================== *)
(** ** kaiType *)
(* ===================================================================== *)

Section KaiTypeFacts.
Context {L : GoLib}.

Lemma basicKindToKai_no_nl (k : BasicKind) (code : gostring) :
  basicKindToKai k = Ok code -> ~ In nl code.
Proof.
  destruct k; simpl; intros H; try discriminate H;
    injection H as <-; vm_compute; intros H;
    repeat (destruct H as [H | H]; [discriminate H |]); exact H.
Qed.

(** [kaiType] writes nothing and leaves the package alone. *)
Lemma kaiType_frame (t : GoType) :
  forall g s g', kaiType t g = Ok (s, g') -> buf g' = buf g /\ pkg g' = pkg g.
Proof.
  induction t; intros g s g' H; simpl in H; try discriminate H.
  - destruct (basicKindToKai kind); simpl in H; [| discriminate H].
    injection H as _ <-. split; reflexivity.
  - destruct t; simpl in H;
      try (injection H as _ <-; split; reflexivity).
    destruct (basicKindToKai kind); simpl in H; [| discriminate H].
    injection H as _ <-. split; reflexivity.
  - destruct (kaiType t g) as [[s1 g1] |] eqn:E; simpl in H; [| discriminate H].
    injection H as _ <-. exact (IHt _ _ _ E).
  - destruct (kaiType t g) as [[s1 g1] |] eqn:E; simpl in H; [| discriminate H].
    injection H as _ <-. exact (IHt _ _ _ E).
  - injection H as _ <-. split; reflexivity.
  - injection H as _ <-. split; reflexivity.
Qed.

(** Whether [kaiType] fails, with which error, and the text it returns do
    not depend on the generator. *)
Lemma kaiType_any_generator (t : GoType) :
  forall g g',
    match kaiType t g, kaiType t g' with
    | Ok (s, _), Ok (s', _) => s = s'
    | Abort e, Abort e' => e = e'
    | _, _ => False
    end.
Proof.
  induction t; intros g g'; simpl; try reflexivity.
  - destruct (basicKindToKai kind); simpl; reflexivity.
  - destruct t; simpl; try reflexivity.
    destruct (basicKindToKai kind); simpl; reflexivity.
  - specialize (IHt g g').
    destruct (kaiType t g) as [[s1 g1] |], (kaiType t g') as [[s2 g2] |];
      simpl; try contradiction; congruence.
  - specialize (IHt g g').
    destruct (kaiType t g) as [[s1 g1] |], (kaiType t g') as [[s2 g2] |];
      simpl; try contradiction; congruence.
Qed.

Lemma kaiType_abort_any (t : GoType) (g g' : Generator) (e : Fatal) :
  kaiType t g = Abort e -> kaiType t g' = Abort e.
Proof.
  intros H. pose proof (kaiType_any_generator t g g') as K. rewrite H in K.
  destruct (kaiType t g') as [[s2 g2] |]; [contradiction | congruence].
Qed.

Lemma kaiType_ok_any (t : GoType) (g g' : Generator) s g1 :
  kaiType t g = Ok (s, g1) -> exists g1', kaiType t g' = Ok (s, g1').
Proof.
  intros H. pose proof (kaiType_any_generator t g g') as K. rewrite H in K.
  destruct (kaiType t g') as [[s2 g2] |]; [| contradiction].
  subst. eexists. reflexivity.
Qed.

(** C4: a field of a named type over a basic kind that has a code gets a
    [type:] line with that code and an [enum:] line with the normalized
    name of the type, and the name is recorded as a dependency. *)
Theorem kaiType_named_basic_is_enum
    (name kname : gostring) (k : BasicKind) (code : gostring) (g : Generator) :
  basicKindToKai k = Ok code ->
  ~ In nl (snakeCase name) ->
  exists out,
    kaiType (Named name (Basic k kname)) g = Ok (out, add_dep name g)
    /\ out = lit "type: " ++ code ++ [nl] ++ lit "enum: " ++ snakeCase name
    /\ lines out = [lit "type: " ++ code; lit "enum: " ++ snakeCase name].
Proof.
  intros Hk Hname. eexists. split; [| split; [reflexivity |]].
  - simpl. rewrite Hk. reflexivity.
  - unfold lines.
    replace (lit "type: " ++ code ++ [nl] ++ lit "enum: " ++ snakeCase name)
      with ((lit "type: " ++ code) ++ nl :: (lit "enum: " ++ snakeCase name))
      by (rewrite <- app_assoc; reflexivity).
    rewrite Split_app_sep, !Split_no_sep; [reflexivity | |].
    + intros H. apply in_app_or in H. destruct H as [H | H]; [| contradiction].
      refute_in H.
    + intros H. apply in_app_or in H. destruct H as [H | H].
      * refute_in H.
      * exact (basicKindToKai_no_nl k code Hk H).
Qed.

(** C6: an array of length [len] is translated as its element, then
    [repeat: expr], then [repeat-expr:] with the decimal literal of [len]. *)
Theorem kaiType_array_repeat
    (elem : GoType) (len : Z) (g g' : Generator) (s : gostring) :
  kaiType elem g = Ok (s, g') ->
  ~ In nl (TypeString (Array elem len)) ->
  exists out,
    kaiType (Array elem len) g = Ok (out, g')
    /\ out = s ++ [nl] ++ lit "repeat: expr" ++ [nl]
              ++ lit "repeat-expr: " ++ itoa len
              ++ lit " # " ++ TypeString (Array elem len)
    /\ lines out = lines s ++ [lit "repeat: expr";
                               lit "repeat-expr: " ++ itoa len
                                 ++ lit " # " ++ TypeString (Array elem len)]
    /\ atoi (itoa len) = Some len.
Proof.
  intros He Hshow. eexists. split; [| split; [reflexivity | split]].
  - simpl. rewrite He. reflexivity.
  - unfold lines. change (s ++ [nl] ++ ?x) with (s ++ nl :: x).
    rewrite Split_app_sep. f_equal.
    change (lit "repeat: expr" ++ [nl] ++ ?x) with (lit "repeat: expr" ++ nl :: x).
    rewrite Split_app_sep, !Split_no_sep; [reflexivity | |].
    + intros H. apply in_app_or in H. destruct H as [H | H].
      { refute_in H. }
      apply in_app_or in H. destruct H as [H | H]; [exact (itoa_no_nl len H) |].
      apply in_app_or in H. destruct H as [H | H]; [| contradiction].
      refute_in H.
    + intros H. refute_in H.
  - apply atoi_itoa.
Qed.

(** C10: the recursion of [kaiType] is exactly as deep as the array and
    slice constructors at the head of the type: with that budget plus one
    (or more) the bounded run returns what [kaiType] returns, with less it
    does not finish; a named type, a pointer and a signature are answered
    by the first call, whatever their underlying, pointee and parameter
    types are. *)
Theorem kaiType_recursion_depth (t : GoType) (g : Generator) :
  (forall extra,
      kaiType_bounded (S (wrappers t) + extra) t g = Some (kaiType t g))
  /\ kaiType_bounded (wrappers t) t g = None
  /\ (forall name u, wrappers (Named name u) = O)
  /\ (forall elem, wrappers (Pointer elem) = O)
  /\ (forall params results, wrappers (Signature params results) = O).
Proof.
  split; [| split; [| repeat split]].
  - revert g. induction t; intros g extra; simpl; try reflexivity.
    + destruct t; reflexivity.
    + specialize (IHt g extra). simpl in IHt. rewrite IHt. reflexivity.
    + specialize (IHt g extra). simpl in IHt. rewrite IHt. reflexivity.
  - revert g. induction t; intros g; simpl; try reflexivity.
    + rewrite IHt. reflexivity.
    + rewrite IHt. reflexivity.
Qed.
End KaiTypeFacts.

(* ===================================================================== *)
(** ** generateType and generate *)
(* ===================================================================== *)

Section GenerateFacts.
Context {L : GoLib}.

Lemma print_lines_buf (ls : list gostring) :
  forall g,
    buf (print_lines ls g)
    = buf g ++ unlines (List.map (fun s => lit "        " ++ s) ls)
    /\ pkg (print_lines ls g) = pkg g.
Proof.
  unfold print_lines, unlines.
  induction ls as [| l ls IH]; intros g; cbn [fold_left List.map concat].
  - rewrite app_nil_r. split; reflexivity.
  - destruct (IH (Printf (lit "        " ++ l ++ [nl]) g)) as [Hb Hp].
    rewrite Hb, Hp. cbn [buf pkg Printf]. rewrite <- !app_assoc.
    split; reflexivity.
Qed.

(** What the loop over the fields appends: complete lines, of which the
    ones that open an entry are the normalized field names, in order. *)
Lemma generateFields_lines (fields : list (gostring * GoType)) :
  forall g g',
    generateFields fields g = Ok g' ->
    Forall (fun f => ~ In nl (snakeCase (fst f))) fields ->
    pkg g' = pkg g
    /\ exists ls,
        buf g' = buf g ++ unlines ls
        /\ Forall (fun l => ~ In nl l) ls
        /\ omap (fun l => CutPrefix l (lit "      - id: ")) ls
           = List.map (fun f => snakeCase (fst f)) fields.
Proof.
  induction fields as [| [fname ftype] rest IH]; intros g g' H Hnames.
  - injection H as <-. split; [reflexivity |].
    exists []. rewrite app_nil_r. repeat split. constructor.
  - simpl in H. inversion Hnames as [| ? ? Hname Hrest]; subst. simpl in Hname.
    destruct (kaiType ftype _) as [[s g1] |] eqn:E; simpl in H; [| discriminate H].
    destruct (kaiType_frame _ _ _ _ E) as [Hb1 Hp1].
    destruct (IH _ _ H Hrest) as [Hp (ls & Hbuf & Hls & Hids)].
    destruct (print_lines_buf (Split s nl) g1) as [Hb2 Hp2].
    split; [rewrite Hp, Hp2, Hp1; reflexivity |].
    exists ((lit "      - id: " ++ snakeCase fname)
              :: List.map (fun s => lit "        " ++ s) (Split s nl) ++ ls).
    split; [| split].
    + rewrite Hbuf, Hb2, Hb1. cbn [buf Printf].
      rewrite unlines_cons, unlines_app, <- !app_assoc. reflexivity.
    + constructor.
      * intros Hin. apply in_app_or in Hin. destruct Hin as [Hin | Hin];
          [| contradiction].
        refute_in Hin.
      * apply Forall_app. split; [| exact Hls].
        apply indent_no_nl, Split_pieces.
    + change (omap ?f (?x :: ?l)) with (omap f ([x] ++ l)).
      rewrite !omap_app. rewrite Hids. simpl List.map.
      assert (Hbody : forall xs,
                 omap (fun l => CutPrefix l (lit "      - id: "))
                   (List.map (fun s => lit "        " ++ s) xs) = []).
      { induction xs as [| x xs IHx]; [reflexivity | exact IHx]. }
      rewrite Hbody. simpl app.
      change (omap ?f [?x]) with (match f x with Some y => [y] | None => [] end).
      rewrite CutPrefix_app. reflexivity.
Qed.

Lemma generateFields_appends (fields : list (gostring * GoType)) :
  forall g g',
    generateFields fields g = Ok g' -> exists ls, buf g' = buf g ++ unlines ls.
Proof.
  induction fields as [| [fname ftype] rest IH]; intros g g' H.
  - injection H as <-. exists []. rewrite app_nil_r. reflexivity.
  - simpl in H.
    destruct (kaiType ftype _) as [[s g1] |] eqn:E; simpl in H; [| discriminate H].
    destruct (IH _ _ H) as [ls Hbuf].
    exists ((lit "      - id: " ++ snakeCase fname)
              :: List.map (fun s => lit "        " ++ s) (Split s nl) ++ ls).
    rewrite Hbuf, (proj1 (print_lines_buf _ _)), (proj1 (kaiType_frame _ _ _ _ E)).
    cbn [buf Printf].
    rewrite unlines_cons, unlines_app, <- !app_assoc. reflexivity.
Qed.

Lemma generateFields_app (a b : list (gostring * GoType)) :
  forall g g',
    generateFields (a ++ b) g = Ok g' ->
    exists gm, generateFields a g = Ok gm /\ generateFields b gm = Ok g'.
Proof.
  induction a as [| [fname ftype] a IH]; intros g g' H.
  - exists g. split; [reflexivity | exact H].
  - simpl in H |- *.
    destruct (kaiType ftype _) as [[s g1] |]; simpl in H |- *; [| discriminate H].
    exact (IH _ _ H).
Qed.

(** C5: a translated struct with N fields has exactly N [- id:] entries,
    the normalized field names in declaration order. *)
Theorem generateType_one_entry_per_field
    (fields : list (gostring * GoType)) (g g' : Generator) :
  generateType (Struct fields) g = Ok g' ->
  Forall (fun f => ~ In nl (snakeCase (fst f))) fields ->
  exists out,
    buf g' = buf g ++ out
    /\ id_entries out = List.map (fun f => snakeCase (fst f)) fields
    /\ length (id_entries out) = length fields.
Proof.
  intros H Hnames. simpl in H.
  destruct (generateFields_lines fields g g' H Hnames)
    as [_ (ls & Hbuf & Hls & Hids)].
  exists (unlines ls). split; [exact Hbuf |].
  assert (Hent : id_entries (unlines ls)
                 = List.map (fun f => snakeCase (fst f)) fields).
  { unfold id_entries, lines.
    rewrite <- (app_nil_r (unlines ls)), Split_unlines by exact Hls.
    rewrite omap_app, Hids. simpl. apply app_nil_r. }
  split; [exact Hent |].
  rewrite Hent. apply length_map.
Qed.

Lemma generateFields_abort_any (fields : list (gostring * GoType)) :
  forall g g' e,
    generateFields fields g = Abort e -> generateFields fields g' = Abort e.
Proof.
  induction fields as [| [fname ftype] rest IH]; intros g g' e H;
    [discriminate H |].
  simpl in H |- *.
  destruct (kaiType ftype (Printf _ g)) as [[s g1] |] eqn:E; simpl in H.
  - destruct (kaiType_ok_any _ _
                (Printf (lit "      - id: " ++ snakeCase fname ++ [nl]) g') _ _ E)
      as [g1' E'].
    rewrite E'. simpl. exact (IH _ _ _ H).
  - rewrite (kaiType_abort_any _ _
               (Printf (lit "      - id: " ++ snakeCase fname ++ [nl]) g') _ E).
    exact H.
Qed.

Lemma generateType_abort_any (t : GoType) (g g' : Generator) (e : Fatal) :
  generateType t g = Abort e -> generateType t g' = Abort e.
Proof.
  destruct t; simpl; try (intros H; exact H).
  apply generateFields_abort_any.
Qed.

Lemma generateType_pkg (t : GoType) (g g' : Generator) :
  generateType t g = Ok g' -> pkg g' = pkg g.
Proof.
  destruct t; simpl; try discriminate.
  revert g g'. induction fields as [| [fname ftype] rest IH]; intros g g' H.
  - injection H as <-. reflexivity.
  - simpl in H.
    destruct (kaiType ftype _) as [[s g1] |] eqn:E; simpl in H; [| discriminate H].
    rewrite (IH _ _ H).
    rewrite (proj2 (print_lines_buf _ _)).
    rewrite (proj2 (kaiType_frame _ _ _ _ E)). reflexivity.
Qed.

(** Whether [generate] fails on a name depends on the package only. *)
Lemma generate_abort_any (typeName : gostring) (g g' : Generator) (e : Fatal) :
  pkg g' = pkg g ->
  generate typeName g = Abort e -> generate typeName g' = Abort e.
Proof.
  unfold generate. intros ->.
  destruct (find_def (defs (pkg g)) typeName); [| intros H; exact H].
  apply generateType_abort_any.
Qed.

Lemma generate_pkg (typeName : gostring) (g g' : Generator) :
  generate typeName g = Ok g' -> pkg g' = pkg g.
Proof.
  unfold generate.
  destruct (find_def (defs (pkg g)) typeName); [| discriminate].
  intros H. apply generateType_pkg in H. exact H.
Qed.

(** The loop over the requested names stops at the first fatal error. *)
Lemma generate_all_aborts (types : list gostring) :
  forall g typeName g1 e,
    In typeName types ->
    pkg g1 = pkg g ->
    generate typeName g1 = Abort e ->
    exists e', generate_all types g = Abort e'.
Proof.
  induction types as [| t types IH]; intros g typeName g1 e Hin Hp Hab;
    [destruct Hin |].
  simpl. destruct (generate t g) as [g2 |] eqn:E; simpl.
  - destruct Hin as [-> | Hin].
    + rewrite (generate_abort_any typeName g1 g e (eq_sym Hp) Hab) in E.
      discriminate E.
    + apply (IH g2 typeName g1 e Hin); [| exact Hab].
      rewrite Hp. symmetry. exact (generate_pkg _ _ _ E).
  - eexists. reflexivity.
Qed.

(** C8: when the generation of a requested type ends in one of the fatal
    errors, the run ends with a fatal error and the file system is as it
    was: no output file is written. *)
Theorem main_writes_nothing_on_error
    (inv : Invocation) (fs : gmap gostring gostring)
    (typeName : gostring) (g : Generator) (e : Fatal) :
  In typeName (Split (typeNames inv) 44) ->
  pkg g = loaded inv ->
  generate typeName g = Abort e ->
  fst (main inv fs) = fs
  /\ snd (main inv fs) <> Finished
  /\ (typeNames inv <> [] -> exists e', snd (main inv fs) = Fatality e').
Proof.
  intros Hin Hp Hab. unfold main.
  destruct (typeNames inv) as [| r names] eqn:Hn.
  - repeat split; [discriminate | congruence].
  - rewrite <- Hn in *.
    destruct (generate_all_aborts (Split (typeNames inv) 44)
                (Printf (lit "types:" ++ [nl])
                   (Printf [nl] (Printf (header inv) (new_generator (loaded inv)))))
                typeName g e Hin Hp Hab) as [e' He'].
    rewrite He'. simpl. repeat split; [discriminate |].
    intros _. exists e'. reflexivity.
Qed.

(** C9: a struct written inline is not a field type [kaiType] knows: the
    field translator fails with [UnsupportedTypeKind] of that struct, so a
    struct with such a field is not generated; a struct body is generated
    only as the type handed to [generateType], and a named struct used as a
    field is referred to by name, not expanded. *)
Theorem inline_struct_field_unsupported
    (inner : list (gostring * GoType)) (g : Generator) :
  kaiType (Struct inner) g = Abort (UnsupportedTypeKind (Struct inner))
  /\ (forall fname rest,
         generateType (Struct ((fname, Struct inner) :: rest)) g
         = Abort (UnsupportedTypeKind (Struct inner)))
  /\ (forall before fname rest,
         exists e,
           generateType (Struct (before ++ (fname, Struct inner) :: rest)) g
           = Abort e)
  /\ (forall name,
         kaiType (Named name (Struct inner)) g
         = Ok (lit "type: " ++ snakeCase name ++ lit " # " ++ name,
               add_dep name g)).
Proof.
  split; [reflexivity | split; [reflexivity | split; [| reflexivity]]].
  intros before fname rest. simpl. revert g.
  induction before as [| [n t] before IH]; intros g; simpl.
  - eexists. reflexivity.
  - destruct (kaiType t _) as [[s g1] |]; simpl; [apply IH |].
    eexists. reflexivity.
Qed.
End GenerateFacts.

(* ===================================================================== *)
(** ** End to end *)
(* ===================================================================== *)

Section EndToEnd.
Context {L : GoLib}.

(** C1 (amended): a primitive-backed named type over [uint8] yields its
    [type: u1] and [enum:] lines where it is the type of a field of a
    requested struct: when the generation of the struct succeeds, the
    document has, after the struct's normalized name and [seq:], the
    field's [- id:] entry followed by [type: u1] and [enum:] with the
    normalized name of the field's type.  Handed to [generateType] itself,
    as [generate] does for a requested primitive-backed type, a basic
    underlying type ends the run with [UnsupportedTypeKind]. *)
Theorem generate_enum_field
    (typeName ename kname fname : gostring)
    (before rest : list (gostring * GoType)) (g g' : Generator) :
  find_def (defs (pkg g)) typeName
  = Some (Struct (before ++ (fname, Named ename (Basic Uint8 kname)) :: rest)) ->
  ~ In nl (snakeCase ename) ->
  generate typeName g = Ok g' ->
  (exists above below,
      buf g' = buf g
               ++ lit "  " ++ snakeCase typeName ++ lit ":" ++ [nl]
               ++ lit "    seq:" ++ [nl]
               ++ unlines (above
                           ++ [lit "      - id: " ++ snakeCase fname;
                               lit "        type: u1";
                               lit "        enum: " ++ snakeCase ename]
                           ++ below))
  /\ (forall k kn g0,
         generateType (Underlying (Named ename (Basic k kn))) g0
         = Abort (UnsupportedTypeKind (Basic k kn))).
Proof.
  intros Hdef Hname H. split; [| reflexivity].
  unfold generate in H. rewrite Hdef in H. cbn [generateType] in H.
  apply generateFields_app in H. destruct H as (gm & Ha & Hb).
  apply generateFields_appends in Ha. destruct Ha as [above Ha].
  cbn [generateFields] in Hb. cbn [kaiType basicKindToKai bind] in Hb.
  apply generateFields_appends in Hb. destruct Hb as [below Hb].
  exists above, below. rewrite Hb. rewrite (proj1 (print_lines_buf _ _)).
  cbn [buf add_dep Printf]. rewrite Ha. cbn [buf Printf].
  replace (Split (lit "type: " ++ lit "u1" ++ [nl] ++ lit "enum: " ++ snakeCase ename) nl)
    with [lit "type: u1"; lit "enum: " ++ snakeCase ename].
  - change (lit "        type: u1") with (lit "        " ++ lit "type: u1").
    change (lit "        enum: " ++ snakeCase ename)
      with (lit "        " ++ lit "enum: " ++ snakeCase ename).
    rewrite !unlines_app. cbn [List.map]. rewrite !unlines_cons.
    change (unlines []) with (@nil rune).
    repeat (rewrite <- app_assoc || rewrite <- app_comm_cons). reflexivity.
  - change (lit "type: " ++ lit "u1" ++ [nl] ++ ?x)
      with ((lit "type: " ++ lit "u1") ++ nl :: x).
    rewrite Split_app_sep, !Split_no_sep; [reflexivity | |].
    + intros Hin. apply in_app_or in Hin. destruct Hin as [Hin | Hin];
        [| contradiction].
      refute_in Hin.
    + intros Hin. refute_in Hin.
Qed.
End EndToEnd.

(** C1 (as stated, refuted): requesting [OrderStatus], declared as
    [type OrderStatus uint8], ends the run with a fatal error and no file. *)
Lemma main_OrderStatus_aborts :
  main (L := go_excerpt) (shop_run (lit "OrderStatus")) ∅
  = (∅, Fatality (UnsupportedTypeKind uint8_t)).
Proof. vm_compute. reflexivity. Qed.

(* ===================================================================== *)
(** ** The statements at the example declarations *)
(* ===================================================================== *)

Lemma generate_enum_field_witness :
  (exists above below,
      buf order_generated
      = buf (new_generator shop)
        ++ lit "  " ++ snakeCase (L := go_excerpt) (lit "Order") ++ lit ":" ++ [nl]
        ++ lit "    seq:" ++ [nl]
        ++ unlines (above
                    ++ [lit "      - id: " ++ snakeCase (L := go_excerpt) (lit "Status");
                        lit "        type: u1";
                        lit "        enum: "
                          ++ snakeCase (L := go_excerpt) (lit "OrderStatus")]
                    ++ below))
  /\ (forall k kn g0,
         generateType (L := go_excerpt)
           (Underlying (Named (lit "OrderStatus") (Basic k kn))) g0
         = Abort (UnsupportedTypeKind (Basic k kn))).
Proof.
  apply (generate_enum_field (L := go_excerpt)
           (lit "Order") (lit "OrderStatus") (lit "uint8") (lit "Status")
           [] [(lit "Items", Array uint8_t 4)] (new_generator shop) order_generated).
  - vm_compute. reflexivity.
  - intros H. refute_in H.
  - vm_compute. reflexivity.
Defined.

Lemma kaiType_named_basic_is_enum_witness :
  exists out,
    kaiType (L := go_excerpt) OrderStatus (new_generator shop)
    = Ok (out, add_dep (lit "OrderStatus") (new_generator shop))
    /\ out = lit "type: " ++ lit "u1" ++ [nl] ++ lit "enum: "
               ++ snakeCase (L := go_excerpt) (lit "OrderStatus")
    /\ lines out = [lit "type: " ++ lit "u1";
                    lit "enum: " ++ snakeCase (L := go_excerpt) (lit "OrderStatus")].
Proof.
  apply (kaiType_named_basic_is_enum (L := go_excerpt)
           (lit "OrderStatus") (lit "uint8") Uint8 (lit "u1") (new_generator shop)).
  - reflexivity.
  - intros H. refute_in H.
Defined.

Lemma generateType_one_entry_per_field_witness :
  exists out,
    buf order_generated
    = buf (Printf (lit "    seq:" ++ [nl])
             (Printf (lit "  " ++ lit "order" ++ lit ":" ++ [nl]) (new_generator shop)))
      ++ out
    /\ id_entries out
       = List.map (fun f => snakeCase (L := go_excerpt) (fst f))
           [(lit "Status", OrderStatus); (lit "Items", Array uint8_t 4)]
    /\ length (id_entries out)
       = length [(lit "Status", OrderStatus); (lit "Items", Array uint8_t 4)].
Proof.
  apply (generateType_one_entry_per_field (L := go_excerpt)).
  - vm_compute. reflexivity.
  - repeat constructor; intros H; refute_in H.
Defined.

Lemma kaiType_array_repeat_witness :
  exists out,
    kaiType (L := go_excerpt) (Array uint8_t 4) (new_generator shop)
    = Ok (out, new_generator shop)
    /\ out = (lit "type: u1 # uint8") ++ [nl] ++ lit "repeat: expr" ++ [nl]
               ++ lit "repeat-expr: " ++ itoa 4
               ++ lit " # " ++ TypeString (GoLib := go_excerpt) (Array uint8_t 4)
    /\ lines out
       = lines (lit "type: u1 # uint8")
           ++ [lit "repeat: expr";
               lit "repeat-expr: " ++ itoa 4
                 ++ lit " # " ++ TypeString (GoLib := go_excerpt) (Array uint8_t 4)]
    /\ atoi (itoa 4) = Some 4.
Proof.
  apply (kaiType_array_repeat (L := go_excerpt)
           uint8_t 4 (new_generator shop) (new_generator shop)
           (lit "type: u1 # uint8")).
  - reflexivity.
  - intros H. refute_in H.
Defined.

Lemma main_writes_nothing_on_error_witness :
  fst (main (L := go_excerpt) (shop_run (lit "Order,Lookup")) ∅) = ∅
  /\ snd (main (L := go_excerpt) (shop_run (lit "Order,Lookup")) ∅) <> Finished
  /\ (typeNames (shop_run (lit "Order,Lookup")) <> [] ->
      exists e',
        snd (main (L := go_excerpt) (shop_run (lit "Order,Lookup")) ∅) = Fatality e').
Proof.
  apply (main_writes_nothing_on_error (L := go_excerpt)
           (shop_run (lit "Order,Lookup")) ∅ (lit "Lookup") (new_generator shop)
           (UnsupportedTypeKind (Map string_t uint8_t))).
  - vm_compute. right. left. reflexivity.
  - reflexivity.
  - vm_compute. reflexivity.
Defined.

(** The whole run on [-type Order]: the document and the file it goes to. *)
Example main_Order_document :
  main (L := go_excerpt) (shop_run (lit "Order")) ∅
  = ({[ lit "order_type.ksy" :=
          lit "# Code generated by " ++ [34] ++ lit "enum2kaitai -type Order"
            ++ [34] ++ lit "; DO NOT EDIT." ++ [nl] ++ [nl]
            ++ unlines [lit "types:";
                        lit "  order:";
                        lit "    seq:";
                        lit "      - id: status";
                        lit "        type: u1";
                        lit "        enum: order_status";
                        lit "      - id: items";
                        lit "        type: u1 # uint8";
                        lit "        repeat: expr";
                        lit "        repeat-expr: 4 # [4]uint8"] ]},
     Finished).
Proof. vm_compute. reflexivity. Qed.

(** A name without a definition ends the run in [generate]. *)
Example main_unknown_type :
  main (L := go_excerpt) (shop_run (lit "Order,Invoice")) ∅
  = (∅, Fatality (UnresolvedTypeName (lit "Invoice"))).
Proof. vm_compute. reflexivity. Qed.

(** A named type over a kind without a code ends the run in
    [basicKindToKai]. *)
Example kaiType_untyped_kind :
  kaiType (L := go_excerpt)
    (Named (lit "T") (Basic UntypedNil (lit "untyped nil"))) (new_generator shop)
  = Abort (UnsupportedPrimitiveKind UntypedNil).
Proof. reflexivity. Qed.

(* ===================================================================== *)
(** ** Further properties of snakeCase *)
(* ===================================================================== *)

Section SnakeCaseMore.
Context {L : GoLib}.

(** X1: a name without upper-case runes is already normalized: [snakeCase]
    returns it unchanged. *)
Theorem snakeCase_without_upper (s : gostring) :
  Forall (fun r => IsUpper r = false) s -> snakeCase s = s.
Proof. intros Hs. apply snakeCase_loop_fixed, Hs. Qed.

Lemma snakeCase_loop_upper_run (s : gostring) :
  Forall (fun r => IsUpper r = true) s ->
  snakeCase_loop true s = List.map ToLower s.
Proof.
  induction 1 as [| r s Hr _ IH]; simpl; [reflexivity |].
  rewrite Hr. simpl. f_equal. exact IH.
Qed.

(** X2: a run of upper-case runes (an acronym) gets no separator: it is
    lower-cased rune by rune. *)
Theorem snakeCase_all_upper (s : gostring) :
  Forall (fun r => IsUpper r = true) s -> snakeCase s = List.map ToLower s.
Proof. apply snakeCase_loop_upper_run. Qed.

Lemma snakeCase_loop_length (s : gostring) :
  forall b,
    (length s <= length (snakeCase_loop b s)
     /\ length (snakeCase_loop b s) <= 2 * length s - (if b then 1 else 0))%nat.
Proof.
  induction s as [| r s IH]; intros b; simpl; [destruct b; simpl; lia |].
  destruct (IsUpper r).
  - specialize (IH true). rewrite length_app. simpl in *.
    unfold rune in *. destruct b; simpl; lia.
  - specialize (IH false). simpl in *. unfold rune in *. destruct b; lia.
Qed.

Lemma snakeCase_loop_pieces (s : gostring) :
  forall prev,
    snakeCase_loop match prev with Some p => IsUpper p | None => true end s
    = concat (pieces prev s).
Proof.
  induction s as [| r s IH]; intros prev; [reflexivity |].
  cbn [snakeCase_loop pieces concat]. unfold piece, lower_rune.
  specialize (IH (Some r)). cbn beta iota in IH.
  destruct (IsUpper r) eqn:Hr.
  - rewrite IH. cbn [andb]. rewrite <- app_assoc.
    destruct prev as [p |]; reflexivity.
  - rewrite IH. reflexivity.
Qed.

(** X3: the normalized name is, rune by rune and in order, the rune itself
    (lower-cased when it is upper case), with one underscore before it
    exactly when it is upper case and the rune before it is not: no rune is
    dropped, nothing else is written, and nothing comes before the first
    rune.  So the empty name stays empty and a name of [n >= 1] runes gets
    between [n] and [2n - 1] runes. *)
Theorem snakeCase_by_rune (s : gostring) :
  snakeCase s = concat (pieces None s)
  /\ length (pieces None s) = length s
  /\ (length s <= length (snakeCase s))%nat
  /\ (s = [] /\ snakeCase s = [] \/ (length (snakeCase s) + 1 <= 2 * length s)%nat).
Proof.
  split; [exact (snakeCase_loop_pieces s None) | split; [| split]].
  - generalize (@None rune). induction s as [| r s IH]; intros prev;
      [reflexivity |]. simpl. rewrite IH. reflexivity.
  - apply (snakeCase_loop_length s true).
  - destruct s as [| r s]; [left; split; reflexivity | right].
    pose proof (snakeCase_loop_length (r :: s) true) as [_ H].
    unfold snakeCase. simpl in *. unfold rune in *. lia.
Qed.

Lemma snakeCase_loop_strip (s : gostring) :
  forall b,
    Forall (fun r => r <> 95 /\ ToLower r <> 95) s ->
    List.filter (fun r => negb (r =? 95)) (snakeCase_loop b s)
    = List.map lower_rune s.
Proof.
  induction s as [| r s IH]; intros b Hs; [reflexivity |].
  cbn [snakeCase_loop List.map].
  inversion Hs as [| ? ? [Hr Hl] Hs']; subst.
  unfold lower_rune at 1. destruct (IsUpper r).
  - rewrite List.filter_app. cbn [List.filter].
    assert (E1 : (ToLower r =? 95) = false) by (apply Z.eqb_neq; exact Hl).
    rewrite E1. cbn [negb]. rewrite (IH true Hs').
    destruct b; reflexivity.
  - cbn [List.filter].
    assert (E1 : (r =? 95) = false) by (apply Z.eqb_neq; exact Hr).
    rewrite E1. cbn [negb]. f_equal. apply IH, Hs'.
Qed.

(** X4: apart from the separators, the normalized name is the name with its
    upper-case runes lower-cased: for a name without underscores, taking the
    underscores out of the result gives the lower-cased name. *)
Theorem snakeCase_strip_separators (s : gostring) :
  Forall (fun r => r <> 95 /\ ToLower r <> 95) s ->
  List.filter (fun r => negb (r =? 95)) (snakeCase s) = List.map lower_rune s.
Proof. apply snakeCase_loop_strip. Qed.
End SnakeCaseMore.

Lemma snakeCase_without_upper_witness :
  snakeCase (L := go_excerpt) (lit "order_status") = lit "order_status".
Proof.
  apply (snakeCase_without_upper (L := go_excerpt)).
  vm_compute. repeat constructor.
Defined.

Lemma snakeCase_all_upper_witness :
  snakeCase (L := go_excerpt) (lit "HTTP")
  = List.map (ToLower (GoLib := go_excerpt)) (lit "HTTP").
Proof.
  apply (snakeCase_all_upper (L := go_excerpt)).
  vm_compute. repeat constructor.
Defined.

Lemma snakeCase_strip_separators_witness :
  List.filter (fun r => negb (r =? 95)) (snakeCase (L := go_excerpt) (lit "OrderStatus"))
  = List.map (lower_rune (L := go_excerpt)) (lit "OrderStatus").
Proof.
  apply (snakeCase_strip_separators (L := go_excerpt)).
  vm_compute. repeat constructor; discriminate.
Defined.

(* ===================================================================== *)
(** ** Further properties of kaiType *)
(* ===================================================================== *)

Section KaiTypeMore.
Context {L : GoLib}.

Lemma kaiType_type_prefix (t : GoType) (g g' : Generator) (s : gostring) :
  kaiType t g = Ok (s, g') -> exists rest, s = lit "type: " ++ rest.
Proof.
  revert g g' s. induction t; intros g g' s H; simpl in H; try discriminate H.
  - destruct (basicKindToKai kind); simpl in H; [| discriminate H].
    injection H as <- _. eexists. reflexivity.
  - destruct t; simpl in H; try (injection H as <- _; eexists; reflexivity).
    destruct (basicKindToKai kind); simpl in H; [| discriminate H].
    injection H as <- _. eexists. reflexivity.
  - destruct (kaiType t g) as [[s1 g1] |] eqn:E; simpl in H; [| discriminate H].
    injection H as <- _. destruct (IHt _ _ _ E) as [rest ->].
    eexists. rewrite <- app_assoc. reflexivity.
  - destruct (kaiType t g) as [[s1 g1] |] eqn:E; simpl in H; [| discriminate H].
    injection H as <- _. destruct (IHt _ _ _ E) as [rest ->].
    eexists. rewrite <- app_assoc. reflexivity.
  - injection H as <- _. eexists. reflexivity.
  - injection H as <- _. eexists. reflexivity.
Qed.

(** X5: whatever the field type, a translation begins with a [type:]
    directive, and the repeat directives of an array or a slice come after
    the translation of its element: the translation of an array or slice of
    a translated type is that type's translation followed by [repeat: expr]
    and the [repeat-expr:] line (the length for an array, the placeholder
    [todo_add_slice_len] for a slice), with the generator the element left. *)
Theorem kaiType_starts_with_type (t : GoType) (g g' : Generator) (s : gostring) :
  kaiType t g = Ok (s, g') ->
  (exists rest, s = lit "type: " ++ rest)
  /\ (forall len,
         kaiType (Array t len) g
         = Ok (s ++ [nl] ++ lit "repeat: expr" ++ [nl]
                 ++ lit "repeat-expr: " ++ itoa len
                 ++ lit " # " ++ TypeString (Array t len), g'))
  /\ kaiType (Slice t) g
     = Ok (s ++ [nl] ++ lit "repeat: expr" ++ [nl]
             ++ lit "repeat-expr: todo_add_slice_len # " ++ TypeString (Slice t), g').
Proof.
  intros H. split; [exact (kaiType_type_prefix _ _ _ _ H) | split].
  - intros len. cbn [kaiType]. rewrite H. reflexivity.
  - cbn [kaiType]. rewrite H. reflexivity.
Qed.

Lemma kaiType_effect (t : GoType) (g g' : Generator) (s : gostring) :
  kaiType t g = Ok (s, g') ->
  g' = match dep_of t with
       | Some name => add_dep name g
       | None => g
       end.
Proof.
  revert g g' s. induction t; intros g g' s H; simpl in H; try discriminate H.
  - destruct (basicKindToKai kind); simpl in H; [| discriminate H].
    injection H as _ <-. reflexivity.
  - destruct t; simpl in H; try (injection H as _ <-; reflexivity).
    destruct (basicKindToKai kind); simpl in H; [| discriminate H].
    injection H as _ <-. reflexivity.
  - destruct (kaiType t g) as [[s1 g1] |] eqn:E; simpl in H; [| discriminate H].
    injection H as _ <-. exact (IHt _ _ _ E).
  - destruct (kaiType t g) as [[s1 g1] |] eqn:E; simpl in H; [| discriminate H].
    injection H as _ <-. exact (IHt _ _ _ E).
  - injection H as _ <-. reflexivity.
  - injection H as _ <-. reflexivity.
Qed.

(** X6: the only thing a translation does to the generator is to record the
    named type the field refers to, directly or as the element of arrays and
    slices; a type behind a pointer or in a signature is not recorded, and
    the buffer and the package are left alone. *)
Theorem kaiType_records_dependency (t : GoType) (g g' : Generator) (s : gostring) :
  kaiType t g = Ok (s, g') ->
  g' = match dep_of t with
       | Some name => add_dep name g
       | None => g
       end.
Proof. apply kaiType_effect. Qed.

Lemma kaiType_abort_not_unresolved (t : GoType) (g : Generator) (x : gostring) :
  kaiType t g <> Abort (UnresolvedTypeName x).
Proof.
  revert g. induction t; intros g H; simpl in H; try discriminate H.
  - destruct kind; discriminate H.
  - destruct t; try discriminate H. destruct kind; discriminate H.
  - destruct (kaiType t g) as [[s1 g1] |] eqn:E; simpl in H; [discriminate H |].
    injection H as ->. exact (IHt _ E).
  - destruct (kaiType t g) as [[s1 g1] |] eqn:E; simpl in H; [discriminate H |].
    injection H as ->. exact (IHt _ E).
Qed.

(** X7: a failure comes from the innermost element type and is reported as
    it is there: the error names that type (not the array or slice the field
    has), or the basic kind without a code; [kaiType] never reports an
    unresolved name. *)
Theorem kaiType_error_from_innermost (t : GoType) (g : Generator) (e : Fatal) :
  kaiType t g = Abort e ->
  kaiType (innermost t) g = Abort e
  /\ (e = UnsupportedTypeKind (innermost t)
      \/ exists k, e = UnsupportedPrimitiveKind k /\ In k kinds_without_code).
Proof.
  revert g e. induction t; intros g e H; simpl in H |- *;
    try discriminate H;
    try (split; [exact H | left; congruence]).
  - split; [exact H |]. right. exists kind.
    destruct kind; simpl in H; try discriminate H;
      (injection H as <-; split; [reflexivity | simpl; tauto]).
  - split; [exact H |]. destruct t; simpl in H; try discriminate H.
    right. exists kind.
    destruct kind; simpl in H; try discriminate H;
      (injection H as <-; split; [reflexivity | simpl; tauto]).
  - destruct (kaiType t g) as [[s1 g1] |] eqn:E; simpl in H; [discriminate H |].
    injection H as <-. exact (IHt _ _ E).
  - destruct (kaiType t g) as [[s1 g1] |] eqn:E; simpl in H; [discriminate H |].
    injection H as <-. exact (IHt _ _ E).
Qed.

(** X8: pointer and function fields always translate, also as elements of
    arrays and slices and whatever the pointer points to: the pointee and
    the signature are never inspected, and nothing is recorded. *)
Theorem kaiType_pointer_always_translates (t : GoType) (g : Generator) :
  (exists elem, innermost t = Pointer elem)
  \/ (exists params results, innermost t = Signature params results) ->
  exists s, kaiType t g = Ok (s, g).
Proof.
  induction t; intros H; simpl in H;
    try (destruct H as [[x H] | (x & y & H)]; discriminate H).
  - destruct (IHt H) as [s Hs]. simpl. rewrite Hs. simpl. eexists. reflexivity.
  - destruct (IHt H) as [s Hs]. simpl. rewrite Hs. simpl. eexists. reflexivity.
  - eexists. reflexivity.
  - eexists. reflexivity.
Qed.
End KaiTypeMore.

Lemma kaiType_starts_with_type_witness :
  (exists rest,
      lit "type: u1" ++ [nl] ++ lit "enum: order_status" ++ [nl] ++ lit "repeat: expr"
        ++ [nl] ++ lit "repeat-expr: 4 # [4]OrderStatus"
      = lit "type: " ++ rest)
  /\ (forall len,
         kaiType (L := go_excerpt) (Array (Array OrderStatus 4) len)
           (new_generator shop)
         = Ok ((lit "type: u1" ++ [nl] ++ lit "enum: order_status" ++ [nl]
                  ++ lit "repeat: expr" ++ [nl]
                  ++ lit "repeat-expr: 4 # [4]OrderStatus")
                 ++ [nl] ++ lit "repeat: expr" ++ [nl]
                 ++ lit "repeat-expr: " ++ itoa len
                 ++ lit " # "
                 ++ TypeString (GoLib := go_excerpt) (Array (Array OrderStatus 4) len),
               add_dep (lit "OrderStatus") (new_generator shop)))
  /\ kaiType (L := go_excerpt) (Slice (Array OrderStatus 4)) (new_generator shop)
     = Ok ((lit "type: u1" ++ [nl] ++ lit "enum: order_status" ++ [nl]
              ++ lit "repeat: expr" ++ [nl]
              ++ lit "repeat-expr: 4 # [4]OrderStatus")
             ++ [nl] ++ lit "repeat: expr" ++ [nl]
             ++ lit "repeat-expr: todo_add_slice_len # "
             ++ TypeString (GoLib := go_excerpt) (Slice (Array OrderStatus 4)),
           add_dep (lit "OrderStatus") (new_generator shop)).
Proof.
  apply (kaiType_starts_with_type (L := go_excerpt)
           (Array OrderStatus 4) (new_generator shop)
           (add_dep (lit "OrderStatus") (new_generator shop))).
  vm_compute. reflexivity.
Defined.

Lemma kaiType_records_dependency_witness :
  add_dep (lit "OrderStatus") (new_generator shop)
  = match dep_of (Slice (Array OrderStatus 4)) with
    | Some name => add_dep name (new_generator shop)
    | None => new_generator shop
    end.
Proof.
  apply (kaiType_records_dependency (L := go_excerpt)
           (Slice (Array OrderStatus 4)) (new_generator shop) _
           (lit "type: u1" ++ [nl] ++ lit "enum: order_status" ++ [nl]
              ++ lit "repeat: expr" ++ [nl] ++ lit "repeat-expr: 4 # [4]OrderStatus"
              ++ [nl] ++ lit "repeat: expr" ++ [nl]
              ++ lit "repeat-expr: todo_add_slice_len # [][4]OrderStatus")).
  vm_compute. reflexivity.
Defined.

Lemma kaiType_error_from_innermost_witness :
  kaiType (L := go_excerpt) (innermost (Array (Map string_t uint8_t) 4))
    (new_generator shop)
  = Abort (UnsupportedTypeKind (Map string_t uint8_t))
  /\ (UnsupportedTypeKind (Map string_t uint8_t)
      = UnsupportedTypeKind (innermost (Array (Map string_t uint8_t) 4))
      \/ exists k,
          UnsupportedTypeKind (Map string_t uint8_t) = UnsupportedPrimitiveKind k
          /\ In k kinds_without_code).
Proof.
  apply (kaiType_error_from_innermost (L := go_excerpt)
           (Array (Map string_t uint8_t) 4) (new_generator shop)).
  reflexivity.
Defined.

Lemma kaiType_pointer_always_translates_witness :
  exists s,
    kaiType (L := go_excerpt) (Slice (Pointer (Map string_t uint8_t)))
      (new_generator shop)
    = Ok (s, new_generator shop).
Proof.
  apply (kaiType_pointer_always_translates (L := go_excerpt)).
  left. eexists. reflexivity.
Defined.

(* ===================================================================== *)
(** ** Further properties of generateType and generate *)
(* ===================================================================== *)

Lemma Split_prefix (p rest : gostring) (sep : rune) :
  ~ In sep p -> exists r1 more, Split (p ++ rest) sep = (p ++ r1) :: more.
Proof.
  induction p as [| r p IH]; intros Hp.
  - simpl. pose proof (Split_nonempty rest sep) as Hne.
    destruct (Split rest sep) as [| r1 more]; [contradiction |].
    exists r1, more. reflexivity.
  - destruct IH as (r1 & more & E); [intros H; apply Hp; right; exact H |].
    simpl. destruct (Z.eqb_spec r sep) as [-> | Hne].
    + exfalso. apply Hp. left. reflexivity.
    + rewrite E. exists r1, more. reflexivity.
Qed.

Section GenerateMore.
Context {L : GoLib}.

Lemma print_lines_deps (ls : list gostring) (g : Generator) :
  namedTypeDeps (print_lines ls g) = namedTypeDeps g.
Proof.
  unfold print_lines. revert g.
  induction ls as [| l ls IH]; intros g; cbn [fold_left]; [reflexivity |].
  rewrite IH. reflexivity.
Qed.

Lemma generateFields_blocks (fields : list (gostring * GoType)) :
  forall g g',
    generateFields fields g = Ok g' ->
    exists blocks,
      Forall2 field_block fields blocks
      /\ buf g' = buf g ++ unlines (concat blocks).
Proof.
  induction fields as [| [fname ftype] rest IH]; intros g g' H.
  - injection H as <-. exists []. split; [constructor |].
    rewrite app_nil_r. reflexivity.
  - simpl in H.
    destruct (kaiType ftype _) as [[s g1] |] eqn:E; simpl in H; [| discriminate H].
    destruct (IH _ _ H) as (blocks & Hblocks & Hbuf).
    exists (((lit "      - id: " ++ snakeCase fname)
               :: List.map (fun l => lit "        " ++ l) (lines s)) :: blocks).
    split.
    + constructor; [| exact Hblocks].
      destruct (kaiType_type_prefix _ _ _ _ E) as [tail Htail].
      destruct (Split_prefix (lit "type: ") tail nl) as (r1 & more & Hsplit);
        [intros Hin; refute_in Hin |].
      exists s, r1, more. split; [| split; [| reflexivity]].
      * intros g0. exact (kaiType_ok_any _ _ g0 _ _ E).
      * unfold lines. rewrite Htail. exact Hsplit.
    + rewrite Hbuf, (proj1 (print_lines_buf _ _)), (proj1 (kaiType_frame _ _ _ _ E)).
      cbn [buf Printf concat]. unfold lines.
      rewrite unlines_app, !unlines_cons.
      repeat (rewrite <- app_assoc || rewrite <- app_comm_cons). reflexivity.
Qed.

(** X9: the document of a struct is one block of complete lines per field,
    in field order: the [- id:] line of the field, then the lines of the
    translation of its type, one document line each and each behind eight
    spaces, the first of them a [type:] directive. *)
Theorem generateType_blocks
    (fields : list (gostring * GoType)) (g g' : Generator) :
  generateType (Struct fields) g = Ok g' ->
  exists blocks,
    Forall2 field_block fields blocks
    /\ buf g' = buf g ++ unlines (concat blocks).
Proof. apply generateFields_blocks. Qed.

Lemma find_def_None (ds : list (gostring * GoType)) (typeName : gostring) :
  find_def ds typeName = None <-> ~ In typeName (List.map fst ds).
Proof.
  induction ds as [| [ident T] ds IH]; simpl; [tauto |].
  destruct (decide (ident = typeName)) as [-> | Hne].
  - split; [discriminate | intros H; exfalso; apply H; left; reflexivity].
  - rewrite IH. tauto.
Qed.

Lemma generateFields_not_unresolved (fields : list (gostring * GoType)) :
  forall g x, generateFields fields g <> Abort (UnresolvedTypeName x).
Proof.
  induction fields as [| [fname ftype] rest IH]; intros g x H; [discriminate H |].
  simpl in H.
  destruct (kaiType ftype _) as [[s g1] |] eqn:E; simpl in H.
  - exact (IH _ _ H).
  - injection H as ->. exact (kaiType_abort_not_unresolved _ _ _ E).
Qed.

(** X10: [generate] reports an unresolved type name exactly for the
    requested name, and exactly when the package has no top-level type
    definition of that name; the translation of a resolved type never ends
    in that error. *)
Theorem generate_unresolved_iff (typeName x : gostring) (g : Generator) :
  generate typeName g = Abort (UnresolvedTypeName x)
  <-> x = typeName /\ ~ In typeName (List.map fst (defs (pkg g))).
Proof.
  unfold generate. rewrite <- find_def_None.
  destruct (find_def (defs (pkg g)) typeName) as [underlying |].
  - split; [| intros [_ H]; discriminate H].
    intros H. exfalso. destruct underlying; simpl in H; try discriminate H.
    exact (generateFields_not_unresolved _ _ _ H).
  - split; [intros H; injection H as <-; split; reflexivity |].
    intros [-> _]. reflexivity.
Qed.

Lemma generateFields_text (fields : list (gostring * GoType)) :
  forall g g1,
    generateFields fields g = Ok g1 ->
    exists out,
      forall g0,
        exists g1', generateFields fields g0 = Ok g1' /\ buf g1' = buf g0 ++ out.
Proof.
  induction fields as [| [fname ftype] rest IH]; intros g g1 H.
  - exists []. intros g0. exists g0. rewrite app_nil_r. split; reflexivity.
  - simpl in H.
    destruct (kaiType ftype _) as [[s g2] |] eqn:E; simpl in H; [| discriminate H].
    destruct (IH _ _ H) as [out Hout].
    exists ((lit "      - id: " ++ snakeCase fname ++ [nl])
              ++ unlines (List.map (fun s => lit "        " ++ s) (Split s nl))
              ++ out).
    intros g0. simpl.
    destruct (kaiType_ok_any _ _
                (Printf (lit "      - id: " ++ snakeCase fname ++ [nl]) g0) _ _ E)
      as [g2' E'].
    rewrite E'. simpl.
    destruct (Hout (print_lines (Split s nl) g2')) as (g1' & Hg & Hb).
    exists g1'. split; [exact Hg |].
    rewrite Hb, (proj1 (print_lines_buf _ _)), (proj1 (kaiType_frame _ _ _ _ E')).
    cbn [buf Printf]. rewrite <- !app_assoc. reflexivity.
Qed.

Lemma generate_text (typeName : gostring) (g g1 : Generator) :
  generate typeName g = Ok g1 ->
  exists out,
    forall g0,
      pkg g0 = pkg g ->
      exists g1', generate typeName g0 = Ok g1' /\ buf g1' = buf g0 ++ out.
Proof.
  unfold generate.
  destruct (find_def (defs (pkg g)) typeName) as [underlying |] eqn:Hd;
    [| discriminate].
  destruct underlying; simpl; try discriminate.
  intros H. destruct (generateFields_text _ _ _ H) as [out Hout].
  exists ((lit "  " ++ snakeCase typeName ++ lit ":" ++ [nl])
            ++ (lit "    seq:" ++ [nl]) ++ out).
  intros g0 Hp. rewrite Hp, Hd. simpl.
  destruct (Hout (Printf (lit "    seq:" ++ [nl])
                    (Printf (lit "  " ++ snakeCase typeName ++ lit ":" ++ [nl]) g0)))
    as (g1' & Hg & Hb).
  exists g1'. split; [exact Hg |].
  rewrite Hb. cbn [buf Printf]. rewrite <- !app_assoc. reflexivity.
Qed.


Lemma find_def_unique (ds : list (gostring * GoType)) (typeName : gostring)
    (T : GoType) :
  NoDup ds.*1 -> (typeName, T) ∈ ds -> find_def ds typeName = Some (Underlying T).
Proof.
  induction ds as [| [ident T0] ds IH]; intros Hnd Hin; [inversion Hin |].
  cbn [fmap list_fmap fst] in Hnd. apply NoDup_cons in Hnd. destruct Hnd as [Hfresh Hnd].
  simpl. apply elem_of_cons in Hin.
  destruct (decide (ident = typeName)) as [-> | Hne].
  - destruct Hin as [Heq | Hin]; [congruence |].
    exfalso. apply Hfresh. apply list_elem_of_fmap. exists (typeName, T).
    split; [reflexivity | exact Hin].
  - destruct Hin as [Heq | Hin]; [congruence | exact (IH Hnd Hin)].
Qed.

Lemma find_def_Some (ds : list (gostring * GoType)) (typeName : gostring)
    (U : GoType) :
  find_def ds typeName = Some U ->
  exists T, (typeName, T) ∈ ds /\ U = Underlying T.
Proof.
  induction ds as [| [ident T0] ds IH]; simpl; [discriminate |].
  destruct (decide (ident = typeName)) as [-> | Hne].
  - intros H. injection H as <-. exists T0. split; [left | reflexivity].
  - intros H. destruct (IH H) as (T & Hin & ->).
    exists T. split; [right; exact Hin | reflexivity].
Qed.

(** When every name is defined once, the definition found for a name does
    not depend on the order in which the definitions are gone through. *)
Lemma find_def_any_order (ds ds' : list (gostring * GoType)) (typeName : gostring) :
  NoDup ds.*1 -> ds' ≡ₚ ds -> find_def ds' typeName = find_def ds typeName.
Proof.
  intros Hnd Hperm.
  assert (Hnd' : NoDup ds'.*1) by (rewrite Hperm; exact Hnd).
  destruct (find_def ds typeName) as [U |] eqn:E.
  - destruct (find_def_Some _ _ _ E) as (T & Hin & ->).
    apply find_def_unique; [exact Hnd' | rewrite Hperm; exact Hin].
  - apply find_def_None. apply find_def_None in E.
    intros Hin. apply E.
    apply list_elem_of_In. apply list_elem_of_In in Hin.
    apply list_elem_of_fmap in Hin. destruct Hin as (d & -> & Hd).
    apply list_elem_of_fmap. exists d. split; [reflexivity |].
    rewrite <- Hperm. exact Hd.
Qed.

Lemma generate_text_any_order (typeName : gostring) (g g1 : Generator) :
  NoDup (defs (pkg g)).*1 ->
  generate typeName g = Ok g1 ->
  exists out,
    forall g0,
      defs (pkg g0) ≡ₚ defs (pkg g) ->
      exists g1', generate typeName g0 = Ok g1' /\ buf g1' = buf g0 ++ out.
Proof.
  intros Hnd H. destruct (generate_text _ _ _ H) as [out Hout].
  exists out. intros g0 Hperm.
  destruct (Hout {| buf := buf g0; pkg := pkg g; namedTypeDeps := namedTypeDeps g0 |}
              eq_refl) as (g1' & Hg & Hb).
  unfold generate in Hg |- *. cbn [pkg buf] in Hg.
  rewrite (find_def_any_order _ _ typeName Hnd Hperm).
  destruct (find_def (defs (pkg g)) typeName) as [underlying |]; [| discriminate Hg].
  destruct underlying; try discriminate Hg. cbn [generateType] in Hg |- *.
  destruct (generateFields_text _ _ _ Hg) as [out' Hout'].
  destruct (Hout' (Printf (lit "    seq:" ++ [nl])
                     (Printf (lit "  " ++ snakeCase typeName ++ lit ":" ++ [nl]) g0)))
    as (g2 & Hg2 & Hb2).
  destruct (Hout' (Printf (lit "    seq:" ++ [nl])
                     (Printf (lit "  " ++ snakeCase typeName ++ lit ":" ++ [nl])
                        {| buf := buf g0; pkg := pkg g;
                           namedTypeDeps := namedTypeDeps g0 |})))
    as (g3 & Hg3 & Hb3).
  rewrite Hg in Hg3. injection Hg3 as <-.
  exists g2. split; [exact Hg2 |].
  rewrite Hb2. rewrite Hb3 in Hb. cbn [buf Printf] in Hb |- *.
  rewrite <- !app_assoc in Hb. apply app_inv_head in Hb.
  rewrite <- !app_assoc. rewrite <- Hb. reflexivity.
Qed.

(** X11: when every top-level type name of the package is defined once, the
    document is the concatenation, in the order requested, of one entry per
    type, and the entry of a type is the text [generate] appends for it to
    any generator that holds the same definitions, in whatever order they are
    gone through: neither what was generated before nor the order of the
    definitions changes it. *)
Theorem generate_all_concat (types : list gostring) (g g' : Generator) :
  NoDup (defs (pkg g)).*1 ->
  generate_all types g = Ok g' ->
  exists entries,
    Forall2 (fun typeName entry =>
               forall g0,
                 defs (pkg g0) ≡ₚ defs (pkg g) ->
                 exists g1, generate typeName g0 = Ok g1
                            /\ buf g1 = buf g0 ++ entry)
      types entries
    /\ buf g' = buf g ++ concat entries.
Proof.
  intros Hnd. revert g g' Hnd.
  induction types as [| t types IH]; intros g g' Hnd H.
  - injection H as <-. exists []. split; [constructor |].
    rewrite app_nil_r. reflexivity.
  - simpl in H. destruct (generate t g) as [g1 |] eqn:E; simpl in H;
      [| discriminate H].
    destruct (generate_text_any_order _ _ _ Hnd E) as [entry Hentry].
    pose proof (generate_pkg _ _ _ E) as Hp.
    assert (Hnd1 : NoDup (defs (pkg g1)).*1) by (rewrite Hp; exact Hnd).
    destruct (IH _ _ Hnd1 H) as (entries & Hall & Hbuf).
    exists (entry :: entries). split.
    + constructor; [exact Hentry |].
      eapply Forall2_impl; [exact Hall |].
      intros tn en Hen g0 Hg0. apply Hen. rewrite Hp. exact Hg0.
    + destruct (Hentry g (reflexivity _)) as (g1' & Hg1 & Hb1).
      rewrite E in Hg1. injection Hg1 as <-.
      rewrite Hbuf, Hb1. simpl. rewrite <- app_assoc. reflexivity.
Qed.

Lemma generateFields_deps (fields : list (gostring * GoType)) :
  forall g g',
    generateFields fields g = Ok g' ->
    forall name,
      namedTypeDeps g' !! name
      = if decide (name ∈ field_deps fields) then Some true
        else namedTypeDeps g !! name.
Proof.
  induction fields as [| [fname ftype] rest IH]; intros g g' H name.
  - injection H as <-. unfold field_deps. simpl.
    destruct (decide (name ∈ [])) as [Hin | _]; [| reflexivity].
    inversion Hin.
  - simpl in H.
    destruct (kaiType ftype _) as [[s g1] |] eqn:E; simpl in H; [| discriminate H].
    rewrite (IH _ _ H name), print_lines_deps.
    rewrite (kaiType_effect _ _ _ _ E).
    unfold field_deps. cbn [omap list_omap snd]. fold (field_deps rest).
    destruct (dep_of ftype) as [dep |]; cbn [namedTypeDeps add_dep Printf].
    + destruct (decide (name ∈ field_deps rest)) as [Hr | Hr].
      * rewrite decide_True; [reflexivity | right; exact Hr].
      * destruct (decide (dep = name)) as [-> | Hne].
        -- rewrite lookup_insert_eq, decide_True; [reflexivity | left].
        -- rewrite lookup_insert_ne by exact Hne.
           rewrite decide_False; [reflexivity |].
           intros Hin. inversion Hin; subst; [congruence | contradiction].
    + destruct (decide (name ∈ field_deps rest)); reflexivity.
Qed.
End GenerateMore.

(* ===================================================================== *)
(** ** The report of dependencies *)
(* ===================================================================== *)

Lemma string_le_total (a b : gostring) :
  string_le a b = true \/ string_le b a = true.
Proof.
  revert b. induction a as [| x a IH]; intros [| y b]; simpl; auto.
  destruct (x <? y) eqn:E1; [left; reflexivity |].
  destruct (y <? x) eqn:E2; [right; reflexivity |].
  apply IH.
Qed.

Lemma string_le_trans (a b c : gostring) :
  string_le a b = true -> string_le b c = true -> string_le a c = true.
Proof.
  revert b c. induction a as [| x a IH]; intros [| y b] [| z c]; simpl;
    try discriminate; try reflexivity.
  destruct (Z.ltb_spec x y), (Z.ltb_spec y x), (Z.ltb_spec y z), (Z.ltb_spec z y),
    (Z.ltb_spec x z), (Z.ltb_spec z x);
    try discriminate; try reflexivity; try lia.
  apply IH.
Qed.

#[local] Instance string_order_total : Total string_order.
Proof. intros a b. apply string_le_total. Qed.

#[local] Instance string_order_trans : Transitive string_order.
Proof. intros a b c. apply string_le_trans. Qed.

Lemma sorted_deps_info (g : Generator) :
  StronglySorted string_order (sorted_deps g)
  /\ NoDup (sorted_deps g)
  /\ (forall name, name ∈ sorted_deps g <-> is_Some (namedTypeDeps g !! name)).
Proof.
  unfold sorted_deps, sort_Strings. split; [| split].
  - apply StronglySorted_merge_sort; apply _.
  - rewrite merge_sort_Permutation. apply NoDup_fst_map_to_list.
  - intros name. rewrite merge_sort_Permutation, list_elem_of_fmap. split.
    + intros [[k v] [-> H]]. apply elem_of_map_to_list in H. exists v. exact H.
    + intros [v H]. exists (name, v). split; [reflexivity |].
      apply elem_of_map_to_list. exact H.
Qed.

(** X12: the dependencies are reported in ascending order of their names,
    each once, and they are exactly the names recorded in the map, in
    whatever order the map holds them. *)
Theorem sorted_deps_spec (g : Generator) :
  StronglySorted string_order (sorted_deps g)
  /\ NoDup (sorted_deps g)
  /\ (forall name, name ∈ sorted_deps g <-> is_Some (namedTypeDeps g !! name)).
Proof. apply sorted_deps_info. Qed.

Section ReportFacts.
Context {L : GoLib}.

(** X13: after a struct is generated by a fresh generator, the dependencies
    reported are exactly the named types its fields refer to, directly or as
    elements of arrays and slices; named types behind pointers and in
    signatures are not reported. *)
Theorem generateType_reported_deps
    (fields : list (gostring * GoType)) (g g' : Generator) :
  generateType (Struct fields) g = Ok g' ->
  namedTypeDeps g = ∅ ->
  forall name, name ∈ sorted_deps g' <-> name ∈ field_deps fields.
Proof.
  intros H Hempty name.
  rewrite (proj2 (proj2 (sorted_deps_info g')) name).
  simpl in H. rewrite (generateFields_deps fields g g' H name), Hempty.
  destruct (decide (name ∈ field_deps fields)) as [Hin | Hout].
  - split; [intros _; exact Hin | intros _; eexists; reflexivity].
  - rewrite lookup_empty. split; [intros [v Hv]; discriminate Hv | contradiction].
Qed.
End ReportFacts.

(* ===================================================================== *)
(** ** Further properties of main *)
(* ===================================================================== *)

Lemma Join_cons_piece (r sep : rune) (p : gostring) (ps : list gostring) :
  Join ((r :: p) :: ps) [sep] = r :: Join (p :: ps) [sep].
Proof. destruct ps; reflexivity. Qed.

Lemma Join_Split (s : gostring) (sep : rune) : Join (Split s sep) [sep] = s.
Proof.
  induction s as [| r s IH]; [reflexivity |].
  simpl. destruct (Z.eqb_spec r sep) as [-> | Hne].
  - pose proof (Split_nonempty s sep) as Hne.
    destruct (Split s sep) as [| p ps] eqn:E; [contradiction |].
    change (Join ([] :: p :: ps) [sep]) with (sep :: Join (p :: ps) [sep]).
    rewrite IH. reflexivity.
  - pose proof (Split_nonempty s sep) as Hns.
    destruct (Split s sep) as [| p ps] eqn:E; [contradiction |].
    rewrite Join_cons_piece, IH. reflexivity.
Qed.

Lemma Split_length (s : gostring) (sep : rune) :
  length (Split s sep) = S (length (List.filter (Z.eqb sep) s)).
Proof.
  induction s as [| r s IH]; [reflexivity |].
  simpl. rewrite (Z.eqb_sym sep r).
  destruct (r =? sep); simpl; [rewrite IH; reflexivity |].
  pose proof (Split_nonempty s sep) as Hns.
  destruct (Split s sep) as [| p ps]; [contradiction | exact IH].
Qed.

(** X14: the flag [-type] is cut at every comma and nowhere else: the
    requested names hold no comma, there is one more of them than commas in
    the flag (so never none), and joined by commas they give the flag back. *)
Theorem requested_types_of_flag (flag : gostring) :
  Forall (fun typeName => ~ In 44 typeName) (Split flag 44)
  /\ length (Split flag 44) = S (length (List.filter (Z.eqb 44) flag))
  /\ Join (Split flag 44) (lit ",") = flag.
Proof.
  split; [apply Split_pieces | split; [apply Split_length | apply Join_Split]].
Qed.

Section MainMore.
Context {L : GoLib}.


(** X16: requesting a name the package has no top-level type definition of
    ends the run with a fatal error and no file; an empty name, as a
    trailing or doubled comma in [-type] makes one, is such a name. *)
Theorem main_undeclared_name
    (inv : Invocation) (fs : gmap gostring gostring) (typeName : gostring) :
  typeNames inv <> [] ->
  In typeName (Split (typeNames inv) 44) ->
  ~ In typeName (List.map fst (defs (loaded inv))) ->
  exists e, main inv fs = (fs, Fatality e).
Proof.
  intros Hflag Hin Hundef. unfold main.
  destruct (typeNames inv) as [| r names] eqn:Hn; [contradiction |].
  rewrite <- Hn in *.
  assert (Hab : generate typeName (new_generator (loaded inv))
                = Abort (UnresolvedTypeName typeName)).
  { unfold generate. cbn [pkg new_generator].
    rewrite (proj2 (find_def_None _ _) Hundef). reflexivity. }
  destruct (generate_all_aborts (Split (typeNames inv) 44)
              (Printf (lit "types:" ++ [nl])
                 (Printf [nl] (Printf (header inv) (new_generator (loaded inv)))))
              typeName (new_generator (loaded inv)) _ Hin eq_refl Hab) as [e' He'].
  rewrite He'. exists e'. reflexivity.
Qed.
End MainMore.

(* ===================================================================== *)
(** ** The start of main *)
(* ===================================================================== *)

(** X17: with [-tags] set, the start of [main] goes on only when the one
    argument (the current directory when there is none) is a directory, and
    that directory is the one handed on; with files, or several arguments,
    the run ends there. *)
Theorem main_start_tags
    (stat_IsDir : gostring -> option bool) (filepath_Dir : gostring -> gostring)
    (buildTags : gostring) (flag_Args args tags : list gostring) (d : gostring) :
  buildTags <> [] ->
  main_start stat_IsDir filepath_Dir buildTags flag_Args = inr (args, tags, d) ->
  args = [d]
  /\ stat_IsDir d = Some true
  /\ tags = Split buildTags 44
  /\ (flag_Args = [] /\ d = lit "." \/ flag_Args = [d]).
Proof.
  intros Htags H. unfold main_start, isDirectory in H.
  destruct buildTags as [| c buildTags]; [contradiction |].
  pose proof (Split_nonempty (c :: buildTags) 44) as Hne.
  destruct (Split (c :: buildTags) 44) as [| t ts] eqn:Hsplit; [contradiction |].
  destruct flag_Args as [| a [| b rest]]; try discriminate H.
  - destruct (stat_IsDir (lit ".")) as [[|] |] eqn:Hs; try discriminate H.
    injection H as <- <- <-. repeat split; [exact Hs | left; split; reflexivity].
  - destruct (stat_IsDir a) as [[|] |] eqn:Hs; try discriminate H.
    injection H as <- <- <-. repeat split; [exact Hs | right; reflexivity].
Qed.

(* ===================================================================== *)
(** ** Loading the package *)
(* ===================================================================== *)

Lemma addSpecs_spec (Defs : gmap Z GoType) (specs : list Spec) :
  forall acc,
    match addSpecs Defs specs acc with
    | inr ds =>
        exists new,
          ds = acc ++ new
          /\ Forall2 (fun id d => d.1 = Name id /\ Defs !! NamePos id = Some d.2)
               (type_specs_of specs) new
    | inl e =>
        exists id,
          e = NoDefinition id /\ id ∈ type_specs_of specs
          /\ Defs !! NamePos id = None
    end.
Proof.
  unfold type_specs_of.
  induction specs as [| spec specs IH]; intros acc; simpl.
  - exists []. rewrite app_nil_r. split; [reflexivity | constructor].
  - destruct spec as [| names | id]; try apply IH.
    destruct (Defs !! NamePos id) as [def |] eqn:Hd.
    + specialize (IH (acc ++ [(Name id, def)])).
      destruct (addSpecs Defs specs _) as [e | ds].
      * destruct IH as (id' & -> & Hin & Hnone).
        exists id'. repeat split; [right; exact Hin | exact Hnone].
      * destruct IH as (new & -> & Hall).
        exists ((Name id, def) :: new). rewrite <- app_assoc. split; [reflexivity |].
        constructor; [split; [reflexivity | exact Hd] | exact Hall].
    + exists id. repeat split; [left | exact Hd].
Qed.

Lemma addDecls_spec (Defs : gmap Z GoType) (decls : list Decl) :
  forall acc,
    match addDecls Defs decls acc with
    | inr ds =>
        exists new,
          ds = acc ++ new
          /\ Forall2 (fun id d => d.1 = Name id /\ Defs !! NamePos id = Some d.2)
               (concat (List.map (fun decl => match decl with
                                              | GenDecl specs => type_specs_of specs
                                              | _ => []
                                              end) decls)) new
    | inl e =>
        exists id,
          e = NoDefinition id
          /\ id ∈ concat (List.map (fun decl => match decl with
                                                | GenDecl specs => type_specs_of specs
                                                | _ => []
                                                end) decls)
          /\ Defs !! NamePos id = None
    end.
Proof.
  induction decls as [| decl decls IH]; intros acc; simpl.
  - exists []. rewrite app_nil_r. split; [reflexivity | constructor].
  - destruct decl as [| specs | fname body]; try apply IH.
    pose proof (addSpecs_spec Defs specs acc) as Hs.
    destruct (addSpecs Defs specs acc) as [e | ds].
    + destruct Hs as (id & -> & Hin & Hnone).
      exists id. repeat split; [| exact Hnone].
      apply elem_of_app. left. exact Hin.
    + destruct Hs as (new1 & -> & Hall1).
      specialize (IH (acc ++ new1)).
      destruct (addDecls Defs decls _) as [e | ds].
      * destruct IH as (id & -> & Hin & Hnone).
        exists id. repeat split; [| exact Hnone].
        apply elem_of_app. right. exact Hin.
      * destruct IH as (new2 & -> & Hall2).
        exists (new1 ++ new2). rewrite <- app_assoc. split; [reflexivity |].
        apply Forall2_app; assumption.
Qed.

Lemma addFiles_spec (Defs : gmap Z GoType) (files : list (list Decl)) :
  forall acc,
    match addFiles Defs files acc with
    | inr ds =>
        exists new,
          ds = acc ++ new
          /\ Forall2 (fun id d => d.1 = Name id /\ Defs !! NamePos id = Some d.2)
               (top_level_type_specs
                  {| Pkg_Name := []; Syntax := files; TypesInfo_Defs := Defs |}) new
    | inl e =>
        exists id,
          e = NoDefinition id
          /\ id ∈ top_level_type_specs
                    {| Pkg_Name := []; Syntax := files; TypesInfo_Defs := Defs |}
          /\ Defs !! NamePos id = None
    end.
Proof.
  unfold top_level_type_specs. cbn [Syntax].
  induction files as [| decls files IH]; intros acc; simpl.
  - exists []. rewrite app_nil_r. split; [reflexivity | constructor].
  - pose proof (addDecls_spec Defs decls acc) as Hs.
    destruct (addDecls Defs decls acc) as [e | ds].
    + destruct Hs as (id & -> & Hin & Hnone).
      exists id. repeat split; [| exact Hnone].
      apply elem_of_app. left. exact Hin.
    + destruct Hs as (new1 & -> & Hall1).
      specialize (IH (acc ++ new1)).
      destruct (addFiles Defs files _) as [e | ds].
      * destruct IH as (id & -> & Hin & Hnone).
        exists id. repeat split; [| exact Hnone].
        apply elem_of_app. right. exact Hin.
      * destruct IH as (new2 & -> & Hall2).
        exists (new1 ++ new2). rewrite <- app_assoc. split; [reflexivity |].
        apply Forall2_app; assumption.
Qed.

Lemma addPackage_outcome (p : packages_Package) (g : Generator) :
  match addPackage p g with
  | inr g' =>
      buf g' = buf g
      /\ namedTypeDeps g' = namedTypeDeps g
      /\ pkg_name (pkg g') = Pkg_Name p
      /\ Forall2 (fun id d => d.1 = Name id
                              /\ TypesInfo_Defs p !! NamePos id = Some d.2)
           (top_level_type_specs p) (defs (pkg g'))
  | inl e =>
      exists id,
        e = NoDefinition id /\ id ∈ top_level_type_specs p
        /\ TypesInfo_Defs p !! NamePos id = None
  end.
Proof.
  unfold addPackage.
  pose proof (addFiles_spec (TypesInfo_Defs p) (Syntax p) []) as H.
  destruct (addFiles _ _ _) as [e | ds].
  - exact H.
  - destruct H as (new & -> & Hall). repeat split. exact Hall.
Qed.




Section LoadThenGenerate.
Context {L : GoLib}.

(** X19: loading succeeds only for a single package, and after it a
    requested name is unresolved exactly when no type specification at the
    top level of the package declares it: the names of functions, variables
    and types declared inside functions do not resolve. *)
Theorem parsePackage_resolves
    (loaded : option (list packages_Package)) (g g' : Generator) :
  parsePackage loaded g = inr g' ->
  exists p,
    loaded = Some [p]
    /\ forall typeName,
        generate typeName g' = Abort (UnresolvedTypeName typeName)
        <-> ~ In typeName (List.map Name (top_level_type_specs p)).
Proof.
  unfold parsePackage.
  destruct loaded as [[| p [| q rest]] |]; try discriminate.
  intros H. exists p. split; [reflexivity |]. intros typeName.
  pose proof (addPackage_outcome p g) as Hp. rewrite H in Hp.
  destruct Hp as (_ & _ & _ & Hall).
  assert (Hnames : List.map fst (defs (pkg g'))
                   = List.map Name (top_level_type_specs p)).
  { induction Hall as [| id d ids ds [Hd _] _ IH]; [reflexivity |].
    simpl. rewrite Hd, IH. reflexivity. }
  rewrite <- Hnames. unfold generate.
  rewrite <- find_def_None.
  destruct (find_def (defs (pkg g')) typeName) as [underlying |].
  - split; [| discriminate].
    intros Hab. exfalso. destruct underlying; simpl in Hab; try discriminate Hab.
    exact (generateFields_not_unresolved _ _ _ Hab).
  - split; reflexivity.
Qed.
End LoadThenGenerate.

(* ===================================================================== *)
(** ** The further statements at the example declarations *)
(* ===================================================================== *)

Lemma generateType_blocks_witness :
  exists blocks,
    Forall2 (field_block (L := go_excerpt)) Matrix_fields blocks
    /\ buf matrix_generated = buf (new_generator shop) ++ unlines (concat blocks).
Proof.
  apply (generateType_blocks (L := go_excerpt)).
  vm_compute. reflexivity.
Defined.

Lemma generate_unresolved_iff_witness :
  generate (L := go_excerpt) (lit "Invoice") (new_generator shop)
  = Abort (UnresolvedTypeName (lit "Invoice")).
Proof.
  apply (proj2 (generate_unresolved_iff (L := go_excerpt)
                  (lit "Invoice") (lit "Invoice") (new_generator shop))).
  split; [reflexivity |]. intros H. refute_in H.
Defined.

Lemma generate_all_concat_witness :
  exists entries,
    Forall2 (fun typeName entry =>
               forall g0,
                 defs (pkg g0) ≡ₚ defs (pkg (new_generator shop)) ->
                 exists g1, generate (L := go_excerpt) typeName g0 = Ok g1
                            /\ buf g1 = buf g0 ++ entry)
      [lit "Order"] entries
    /\ buf order_generated = buf (new_generator shop) ++ concat entries.
Proof.
  apply (generate_all_concat (L := go_excerpt)).
  - refine (bool_decide_unpack _ _). vm_compute. exact I.
  - vm_compute. reflexivity.
Defined.

Lemma generateType_reported_deps_witness :
  lit "OrderStatus" ∈ sorted_deps matrix_generated
  <-> lit "OrderStatus" ∈ field_deps Matrix_fields.
Proof.
  apply (generateType_reported_deps (L := go_excerpt)
           Matrix_fields (new_generator shop) matrix_generated).
  - vm_compute. reflexivity.
  - reflexivity.
Defined.


Lemma main_undeclared_name_witness :
  exists e, main (L := go_excerpt) (shop_run (lit "Order,")) ∅ = (∅, Fatality e).
Proof.
  apply (main_undeclared_name (L := go_excerpt) (shop_run (lit "Order,")) ∅ []).
  - vm_compute. discriminate.
  - vm_compute. right. left. reflexivity.
  - intros H. refute_in H.
Defined.

Lemma main_start_tags_witness :
  [lit "."] = [lit "."]
  /\ only_dot (lit ".") = Some true
  /\ Split (lit "linux,amd64") 44 = Split (lit "linux,amd64") 44
  /\ ((@nil gostring) = [] /\ lit "." = lit "." \/ (@nil gostring) = [lit "."]).
Proof.
  apply (main_start_tags only_dot (fun name => name) (lit "linux,amd64") []).
  - vm_compute. discriminate.
  - vm_compute. reflexivity.
Defined.

Lemma parsePackage_resolves_witness :
  exists p,
    Some [shop_loaded] = Some [p]
    /\ forall typeName,
        generate (L := go_excerpt) typeName shop_parsed
        = Abort (UnresolvedTypeName typeName)
        <-> ~ In typeName (List.map Name (top_level_type_specs p)).
Proof.
  apply (parsePackage_resolves (L := go_excerpt)
           (Some [shop_loaded]) (new_generator shop) shop_parsed).
  vm_compute. reflexivity.
Defined.

(** Loading the example keeps the three top-level types, not the type
    declared inside [helper], and [generate] does not resolve the variable
    [limit]. *)
Example shop_parsed_defs :
  List.map fst (defs (pkg shop_parsed))
  = [lit "OrderStatus"; lit "Order"; lit "Lookup"]
  /\ generate (L := go_excerpt) (lit "limit") shop_parsed
     = Abort (UnresolvedTypeName (lit "limit"))
  /\ generate (L := go_excerpt) (lit "scratch") shop_parsed
     = Abort (UnresolvedTypeName (lit "scratch")).
Proof. vm_compute. repeat split. Qed.

(** The report after [Matrix_fields]: the named type inside the slice of
    arrays, and nothing for the pointer to [Order]. *)
Example matrix_dependency_log :
  dependency_log matrix_generated
  = [lit "enum2kaitai: depends on named Go type: OrderStatus" ++ [nl]].
Proof. vm_compute. reflexivity. Qed.
